(** * Verification of the manifest verifier (manifest-verifier/verify_manifest.py)

    The Python script is embedded shallowly: every function of the script is
    a Rocq function in a small monad that collects the console output and
    carries Python exceptions.  Dictionaries are stdpp finite maps, the
    calls into [os.path], [git], [yaml] and [requests] are fields of a
    [World] record.  The manifest is typed as the script expects it (scalar
    fields are strings), and the command line arrives parsed. *)

From Stdlib Require Import ZArith Ascii String List Lia.
From stdpp Require Import base option list gmap strings pretty.

Local Open Scope Z_scope.

(** ** Python values, exceptions, and the output/exception monad *)

(** The scalar values that the script passes to [print_error],
    [print_warning] and [sys.exit]. *)
Inductive pyval :=
  | PInt (z : Z)
  | PBool (b : bool)
  | PStr (s : string).

Inductive exn :=
  | IndexError
  | KeyError (key : string)
  | TypeError
  | AssertionError
  | ValueError
  | BadName
  | OSError
  | FetchError
  | InvalidGitRepositoryError
  | SystemExit (arg : pyval).

Inductive result (A : Type) :=
  | Ok (a : A)
  | Raise (e : exn).
Arguments Ok {A} a.
Arguments Raise {A} e.

(** One line written to standard output: plain [print], or termcolor's
    [cprint] with its colour. *)
Inductive line :=
  | Plain (text : string)
  | Colored (color : string) (text : string).

#[global] Instance pyval_eq_dec : EqDecision pyval.
Proof. solve_decision. Defined.

#[global] Instance line_eq_dec : EqDecision line.
Proof. solve_decision. Defined.

(** A computation yields a value or an exception, together with the lines
    it printed (oldest first); what was printed before an exception stays
    printed. *)
Definition M (A : Type) : Type := (result A * list line)%type.

#[global] Instance M_ret : MRet M := λ A a, (Ok a, []).
#[global] Instance M_bind : MBind M := λ A B k m,
  match m with
  | (Ok a, out) => let '(r, out') := k a in (r, out ++ out')
  | (Raise e, out) => (Raise e, out)
  end.

Definition raise {A} (e : exn) : M A := (Raise e, []).
Definition emit (l : line) : M unit := (Ok tt, [l]).

(** [lift] injects a pure operation that may raise. *)
Definition lift {A} (r : result A) : M A := (r, []).

(** [try: body except gitdb.exc.BadName: handler]: only [BadName] is
    handled, every other exception leaves the statement. *)
Definition try_except_BadName {A} (body handler : M A) : M A :=
  match body with
  | (Raise BadName, out) => let '(r, out') := handler in (r, out ++ out')
  | other => other
  end.

(** Python's [for x in xs: body], with the loop-carried variables in [s]. *)
Fixpoint for_each {A S} (body : S → A → M S) (xs : list A) (s : S) : M S :=
  match xs with
  | [] => mret s
  | x :: xs' => s' ← body s x; for_each body xs' s'
  end.

(** ** Python string operations *)

Definition tab : string := String (ascii_of_nat 9) EmptyString.

(** The double-quote character inside a message. *)
Definition dq : string := String (ascii_of_nat 34) EmptyString.

Definition is_upper (c : ascii) : bool :=
  ((65 <=? nat_of_ascii c) && (nat_of_ascii c <=? 90))%nat.

Definition lower_ascii (c : ascii) : ascii :=
  if is_upper c then ascii_of_nat (nat_of_ascii c + 32) else c.

(** [s.lower()] for a text of ASCII characters: the letters A to Z are
    folded, every other character is kept. *)
Fixpoint lower (s : string) : string :=
  match s with
  | EmptyString => EmptyString
  | String c r => String (lower_ascii c) (lower r)
  end.

Fixpoint str_forallb (p : ascii → bool) (s : string) : bool :=
  match s with
  | EmptyString => true
  | String c r => p c && str_forallb p r
  end.

Definition is_ascii (s : string) : bool :=
  str_forallb (λ c, (nat_of_ascii c <? 128)%nat) s.

(** [s[0]] *)
Definition str_first (s : string) : result ascii :=
  match s with
  | EmptyString => Raise IndexError
  | String c _ => Ok c
  end.

(** [s[-1]] *)
Fixpoint str_last (s : string) : result ascii :=
  match s with
  | EmptyString => Raise IndexError
  | String c EmptyString => Ok c
  | String _ r => str_last r
  end.

Fixpoint char_in (c : ascii) (chars : string) : bool :=
  match chars with
  | EmptyString => false
  | String d r => if Ascii.eqb c d then true else char_in c r
  end.

Fixpoint lstrip (chars s : string) : string :=
  match s with
  | EmptyString => EmptyString
  | String c r => if char_in c chars then lstrip chars r else s
  end.

Fixpoint rstrip (chars s : string) : string :=
  match s with
  | EmptyString => EmptyString
  | String c r =>
      match rstrip chars r with
      | EmptyString => if char_in c chars then EmptyString else String c EmptyString
      | r' => String c r'
      end
  end.

(** [s.strip(chars)] *)
Definition strip (chars s : string) : string := rstrip chars (lstrip chars s).

(** [s.split(sep)] for a one-character separator: every occurrence of the
    separator cuts, so the empty string gives one empty piece and two
    adjacent separators give an empty piece between them. *)
Fixpoint split (sep : ascii) (s : string) : list string :=
  match s with
  | EmptyString => [EmptyString]
  | String c r =>
      if Ascii.eqb c sep then EmptyString :: split sep r
      else match split sep r with
           | [] => [String c EmptyString]
           | piece :: pieces => String c piece :: pieces
           end
  end.

(** [sep.join(pieces)] *)
Fixpoint join (sep : string) (pieces : list string) : string :=
  match pieces with
  | [] => EmptyString
  | [p] => p
  | p :: ps => p +:+ sep +:+ join sep ps
  end.

(** [x in [a, b, ...]] on strings *)
Definition str_in_list (x : string) (l : list string) : bool :=
  existsb (String.eqb x) l.

(** [k in d] for a dictionary *)
Definition py_in {V} (k : string) (d : gmap string V) : bool :=
  match d !! k with Some _ => true | None => false end.

(** [d[k]] for a dictionary *)
Definition getitem {V} (d : gmap string V) (k : string) : result V :=
  match d !! k with Some v => Ok v | None => Raise (KeyError k) end.

(** [str(v)], as used by ['{}'.format(v)] *)
Definition py_str (v : pyval) : string :=
  match v with
  | PInt z => pretty z
  | PBool true => "True"
  | PBool false => "False"
  | PStr s => s
  end.

Fixpoint repeat_str (s : string) (n : nat) : string :=
  match n with
  | O => EmptyString
  | S n' => s +:+ repeat_str s n'
  end.

(** [s * n]: a [str] on the right is a [TypeError], a [bool] counts as an
    integer, a negative count gives the empty string. *)
Definition str_mul (s : string) (n : pyval) : result string :=
  match n with
  | PInt z => Ok (repeat_str s (Z.to_nat z))
  | PBool b => Ok (repeat_str s (if b then 1%nat else 0%nat))
  | PStr _ => Raise TypeError
  end.

(** ** Console helpers of the script *)

Definition cprint (text color : string) : M unit := emit (Colored color text).
Definition print (text : string) : M unit := emit (Plain text).

(** Both helpers are declared with two positional parameters and no
    defaults; a call with another number of arguments raises [TypeError]
    before the body runs. *)
Definition print_error (args : list pyval) : M unit :=
  match args with
  | [indent_level; error_str] =>
      tabs ← lift (str_mul tab indent_level);
      cprint (tabs +:+ "ERROR: " +:+ py_str error_str) "red"
  | _ => raise TypeError
  end.

Definition print_warning (args : list pyval) : M unit :=
  match args with
  | [indent_level; warn_str] =>
      tabs ← lift (str_mul tab indent_level);
      cprint (tabs +:+ "WARN:  " +:+ py_str warn_str) "cyan"
  | _ => raise TypeError
  end.

(** ** SPDX data and [check_license_tag] *)

(** [spdx_data] has exactly the two keys ["licenses"] and ["exceptions"],
    each a dictionary from identifier to [True]. *)
Record SpdxData := {
  spdx_licenses : gmap string bool;
  spdx_exceptions : gmap string bool;
}.

(** The variables of the loop of [check_license_tag]. *)
Record LoopVars := {
  error_count : nat;
  license_exception_flag : bool;
  paren_depth : Z;
  last_paren_depth : Z;
}.

Definition lparen : ascii := "("%char.
Definition rparen : ascii := ")"%char.

(** One iteration of the loop, for the token [licenses[i]]. *)
Definition check_license_token (spdx_data : SpdxData) (cur_license : string)
    (v : LoopVars) (tok : string) : M LoopVars :=
  c0 ← lift (str_first tok);
  let paren_depth1 :=
    if Ascii.eqb c0 lparen then paren_depth v + 1 else paren_depth v in
  ef ←
    (if str_in_list tok ["and"; "AND"; "or"; "OR"] then
       mret (error_count v, license_exception_flag v)
     else if str_in_list tok ["with"; "WITH"] then
       mret (error_count v, true)
     else if license_exception_flag v then
       ec ← (if negb (py_in (strip "()" tok) (spdx_exceptions spdx_data)) then
               print_error [PInt 0;
                 PStr ("Invalid license exception id " +:+ tok +:+
                       " in SPDX tag " +:+ cur_license)] ;;
               mret (S (error_count v))
             else mret (error_count v));
       mret (ec, if paren_depth1 <=? last_paren_depth v then false
                else license_exception_flag v)
     else
       ec ← (if negb (py_in (strip "()" tok) (spdx_licenses spdx_data)) then
               print_error [PInt 0;
                 PStr ("Invalid license id " +:+ tok +:+
                       " in SPDX tag " +:+ cur_license)] ;;
               mret (S (error_count v))
             else mret (error_count v));
       mret (ec, license_exception_flag v));
  cl ← lift (str_last tok);
  mret {| error_count := ef.1;
         license_exception_flag := ef.2;
         paren_depth := if Ascii.eqb cl rparen then paren_depth1 - 1
                        else paren_depth1;
         last_paren_depth := paren_depth1 |}.

Definition check_license_tag (spdx_data : SpdxData) (cur_license : string)
    : M nat :=
  let licenses := split " " cur_license in
  v ← for_each (check_license_token spdx_data cur_license) licenses
        {| error_count := 0; license_exception_flag := false;
           paren_depth := 0; last_paren_depth := 0 |};
  mret (error_count v).

(** ** The manifest and the world around the script *)

(** A repository stanza is a dictionary of scalar fields (["type"],
    ["url"], ["path"]).  A dependency stanza is a dictionary whose scalar
    fields (["name"], ["version"], ["license"]) are kept in [dep_fields] and
    whose ["repository"] entry, a nested dictionary, is kept apart; the
    manifest root likewise with its ["dependencies"] sequence. *)
Record Dependency := {
  dep_fields : gmap string string;
  dep_repository : option (gmap string string);
}.

Record Manifest := {
  manifest_fields : gmap string string;
  manifest_dependencies : option (list Dependency);
}.

(** [dependency["repository"]] *)
Definition getitem_repository (dep : Dependency) : result (gmap string string) :=
  match dep_repository dep with
  | Some repo => Ok repo
  | None => Raise (KeyError "repository")
  end.

(** ["repository" in dependency] *)
Definition has_repository (dep : Dependency) : bool :=
  match dep_repository dep with Some _ => true | None => false end.

(** What GitPython shows of a repository: the URL of its [origin] remote,
    [commit(rev).hexsha] or the exception that [commit(rev)] raises
    ([gitdb.exc.BadName] for a name that is no ref, [ValueError] for a
    well-formed hash of an object that the repository lacks),
    [head.commit.hexsha] and the absolute paths of its submodules. *)
Record GitRepo := {
  remotes_origin_url : string;
  commit_hexsha : string → result string;
  head_commit_hexsha : string;
  submodules_abspath : list string;
}.

(** A JSON document as the script reads it: an object whose entries are
    arrays of flat records. *)
Abbreviation Json := (gmap string (list (gmap string string))).

Record World := {
  os_path_abspath : string → string;
  os_path_exists : string → bool;
  os_path_dirname : string → string;
  os_path_join : string → string → string;
  os_path_relpath : string → string → string;
  (* git.Repo(path) *)
  git_Repo : string → result GitRepo;
  (* open(path, "r") followed by yaml.load *)
  yaml_load_file : string → result Manifest;
  (* requests.get(url).json() *)
  requests_get_json : string → result Json;
  (* str() of a dictionary *)
  str_of_dependency : Dependency → string;
  str_of_mapping : gmap string string → string;
  (* str.lower() of a text with characters outside ASCII *)
  unicode_lower : string → string;
}.

(** [s.lower()]: computed for ASCII text, Python's Unicode case mapping
    otherwise. *)
Definition str_lower (w : World) (s : string) : string :=
  if is_ascii s then lower s else unicode_lower w s.

(** The parsed command line; an option that is not given is the empty
    string in the script and is only iterated or searched, which the empty
    list models. *)
Record Args := {
  manifest_path : string;
  ignore_paths : list string;
  ignore_spdx : list string;
}.

Section Script.
Context (w : World).

Definition validate_submodule_repo (dep : Dependency) (manifest_dir : string)
    : M nat :=
  repo ← lift (getitem_repository dep);
  path ← lift (getitem repo "path");
  submodule ← lift (git_Repo w (os_path_join w manifest_dir path));
  url ← lift (getitem repo "url");
  print ("    Manifest URL:     " +:+ url);;
  print ("    Submodule URL:    " +:+ remotes_origin_url submodule);;
  (* URLs are case-insensitive *)
  error_count ←
    (if negb (String.eqb (str_lower w (remotes_origin_url submodule))
                (str_lower w url)) then
       print_error [PInt 1;
         PStr "Repository url mismatch between manifest and submodule."];;
       mret 1%nat
     else mret 0%nat);
  let manifest_hash := "unknown" in
  manifest_hash ←
    try_except_BadName
      (version ← lift (getitem (dep_fields dep) "version");
       lift (commit_hexsha submodule version))
      (print_error [PInt 1;
         PStr ("Manifest " +:+ dq +:+ "version" +:+ dq +:+
               " is not a valid tag or branch in the submodule.")];;
       mret manifest_hash);
  (* Try with lowercase version *)
  manifest_hash ←
    (if String.eqb manifest_hash "unknown" then
       try_except_BadName
         (version ← lift (getitem (dep_fields dep) "version");
          hexsha ← lift (commit_hexsha submodule (str_lower w version));
          print_warning
            [PStr "Manifest version tag is valid when converted to lowercase."];;
          mret hexsha)
         (mret manifest_hash)
     else mret manifest_hash);
  version ← lift (getitem (dep_fields dep) "version");
  print ("    Manifest Version: " +:+ version);;
  print ("    Manifest hash:    " +:+ manifest_hash);;
  print ("    Submodule hash:   " +:+ head_commit_hexsha submodule);;
  if negb (String.eqb (head_commit_hexsha submodule) manifest_hash) then
    print_error [PInt 1;
      PStr "Revision mismatch between submodule and manifest version."];;
    mret (error_count + 1)%nat
  else mret error_count.

Definition validate_repository (dep : Dependency) (manifest_dir : string)
    : M nat :=
  repo ← lift (getitem_repository dep);
  let repo_name :=
    if py_in "name" (dep_fields dep) then str_of_dependency w dep
    else str_of_mapping w repo in
  print ("Validating repo:      " +:+ repo_name);;
  let error_count := 0%nat in
  error_count ←
    (if negb (py_in "type" repo) then
       print_error [PInt 1;
         PStr (dq +:+ "type" +:+ dq +:+ " field not found in repository.")];;
       mret (error_count + 1)%nat
     else mret error_count);
  type ← lift (getitem repo "type");
  error_count ←
    (if negb (String.eqb "git" type) then
       print_error [PInt 1;
         PStr (dq +:+ "type" +:+ dq +:+ " field is not set to " +:+
               dq +:+ "git" +:+ dq +:+ " in repository")];;
       mret (error_count + 1)%nat
     else mret error_count);
  error_count ←
    (if negb (py_in "url" repo) then
       print_error [PInt 1;
         PStr (dq +:+ "url" +:+ dq +:+ " field not found in repository")];;
       mret (error_count + 1)%nat
     else mret error_count);
  if py_in "path" repo then
    path ← lift (getitem repo "path");
    if negb (os_path_exists w (os_path_join w manifest_dir path)) then
      print_error [PInt 1; PStr ("Relative path does not exist: " +:+ path)];;
      mret (error_count + 1)%nat
    else
      (* Validate submodule revision and url. *)
      n ← validate_submodule_repo dep manifest_dir;
      mret (error_count + n)%nat
  else mret error_count.

Definition spdx_url : string :=
  "https://raw.githubusercontent.com/spdx/license-list-data/".

(** [for record in records: d[record[key]] = True] *)
Definition collect_ids (key : string) (records : list (gmap string string))
    (d : gmap string bool) : M (gmap string bool) :=
  for_each (λ d record, id ← lift (getitem record key); mret (<[id := true]> d))
    records d.

(** [assert cond] *)
Definition py_assert (cond : bool) : M unit :=
  if cond then mret tt else raise AssertionError.

Definition load_spdx_data (ignore_spdx : list string) : M SpdxData :=
  print "Downloading SPDX license data...";;
  let licenses_url := spdx_url +:+ "master/json/licenses.json" in
  licenses ← lift (requests_get_json w licenses_url);
  py_assert (py_in "licenses" licenses);;
  records ← lift (getitem licenses "licenses");
  spdx_licenses ← collect_ids "licenseId" records ∅;
  spdx_licenses ←
    for_each (λ d license, mret (<[license := true]> d)) ignore_spdx spdx_licenses;
  let exceptions_url := spdx_url +:+ "master/json/exceptions.json" in
  exceptions ← lift (requests_get_json w exceptions_url);
  py_assert (py_in "exceptions" exceptions);;
  records ← lift (getitem exceptions "exceptions");
  spdx_exceptions ← collect_ids "licenseExceptionId" records ∅;
  mret {| spdx_licenses := spdx_licenses; spdx_exceptions := spdx_exceptions |}.

Definition list_repo_paths_in_manifest (manifest : Manifest) : list string :=
  match manifest_dependencies manifest with
  | Some dependencies =>
      foldl (λ repo_list dep,
               match dep_repository dep with
               | Some repo =>
                   match repo !! "path" with
                   | Some path => repo_list ++ [path]
                   | None => repo_list
                   end
               | None => repo_list
               end) [] dependencies
  | None => []
  end.

Definition get_all_submodules (repo_root_path : string)
    (ignored_paths : list string) : M (list string) :=
  repo ← lift (git_Repo w repo_root_path);
  for_each (λ path_list abspath,
              let path := os_path_relpath w abspath repo_root_path in
              if negb (str_in_list path ignored_paths)
              then mret (path_list ++ [path]) else mret path_list)
    (submodules_abspath repo) [].

Definition check_for_missing_submodules (manifest_repos git_submodules : list string)
    : M nat :=
  for_each (λ error_count submodule,
              if negb (str_in_list submodule manifest_repos) then
                print_error [PInt 0;
                  PStr ("Git submodule " +:+ submodule +:+
                        " was not found in the manifest.")];;
                mret (error_count + 1)%nat
              else mret error_count)
    git_submodules 0%nat.

Definition validate_dependency (dependency : Dependency) (spdx_data : SpdxData)
    : M nat :=
  let error_count := 0%nat in
  error_count ←
    (if negb (py_in "name" (dep_fields dependency)) then
       print_error [PInt 0; PStr "name field not found in dependency stanza."];;
       mret (error_count + 1)%nat
     else mret error_count);
  error_count ←
    (if negb (py_in "version" (dep_fields dependency)) then
       print_error [PInt 0; PStr "version field not found in dependency stanza."];;
       mret (error_count + 1)%nat
     else mret error_count);
  if negb (py_in "license" (dep_fields dependency)) then
    print_error [PInt 1;
      PStr (dq +:+ "license" +:+ dq +:+ " field not found dependency stanzay.")];;
    mret (error_count + 1)%nat
  else
    license ← lift (getitem (dep_fields dependency) "license");
    print ("Validating SPDX license tag: " +:+ license);;
    n ← check_license_tag spdx_data license;
    mret (error_count + n)%nat.

Definition validate_manifest (manifest_path : string)
    (ignored_paths : list string) (spdx_data : SpdxData) : M nat :=
  let error_count := 0%nat in
  let manifest_dir := os_path_dirname w manifest_path in
  manifest ← lift (yaml_load_file w manifest_path);
  error_count ←
    (if negb (py_in "name" (manifest_fields manifest)) then
       print_error [PInt 0; PStr "name field not found in manifest root."];;
       mret (error_count + 1)%nat
     else mret error_count);
  error_count ←
    (if negb (py_in "version" (manifest_fields manifest)) then
       print_error [PInt 0; PStr "version field not found in manifest root."];;
       mret (error_count + 1)%nat
     else mret error_count);
  error_count ←
    (if negb (py_in "description" (manifest_fields manifest)) then
       print_error [PInt 0; PStr "version field not found in manifest root."];;
       mret (error_count + 1)%nat
     else mret error_count);
  error_count ←
    (if negb (py_in "license" (manifest_fields manifest)) then
       print_error [PInt 0; PStr "version field not found in manifest root."];;
       mret (error_count + 1)%nat
     else
       license ← lift (getitem (manifest_fields manifest) "license");
       print ("Validating SPDX license tag: " +:+ license);;
       n ← check_license_tag spdx_data license;
       mret (error_count + n)%nat);
  error_count ←
    match manifest_dependencies manifest with
    | Some dependencies =>
        for_each (λ error_count dep,
                    n ← validate_dependency dep spdx_data;
                    let error_count := (error_count + n)%nat in
                    if has_repository dep then
                      n ← validate_repository dep manifest_dir;
                      mret (error_count + n)%nat
                    else mret error_count)
          dependencies error_count
    | None => mret error_count
    end;
  let repo_paths := list_repo_paths_in_manifest manifest in
  submodule_paths ←
    get_all_submodules (os_path_dirname w manifest_path) ignored_paths;
  n ← check_for_missing_submodules repo_paths submodule_paths;
  mret (error_count + n)%nat.

(** [sys.exit(arg)] raises [SystemExit]. *)
Definition sys_exit {A} (arg : pyval) : M A := raise (SystemExit arg).

Definition main (args : Args) : M unit :=
  (* Convert any relative path (like './') in passed argument to absolute path. *)
  let manifest_path := os_path_abspath w (manifest_path args) in
  let ignore_paths := ignore_paths args in
  (if negb (os_path_exists w manifest_path) then
     print_error [PInt 0; PStr ("Error: no file found at " +:+ manifest_path)];;
     sys_exit (PInt (-1))
   else mret tt);;
  let manifest_dir := os_path_dirname w manifest_path in
  for_each (λ (_ : unit) p,
              if negb (os_path_exists w (os_path_join w manifest_dir p)) then
                print_error [PInt 0;
                  PStr ("Ignored path: " +:+ p +:+ " was not found.")]
              else mret tt)
    ignore_paths tt;;
  let ignore_spdx := ignore_spdx args in
  spdx_data ← load_spdx_data ignore_spdx;
  error_count ← validate_manifest manifest_path ignore_paths spdx_data;
  print ("Total errors: " +:+ pretty error_count);;
  sys_exit (PBool (0 <? error_count)%nat).

End Script.

(** The exit status of the interpreter process: [SystemExit] with an
    integer gives its low eight bits, with a boolean its value as an
    integer, with any other object 1; an uncaught exception gives 1;
    falling off the end of the script gives 0. *)
Definition exit_status (r : result unit) : Z :=
  match r with
  | Ok _ => 0
  | Raise (SystemExit (PInt z)) => z mod 256
  | Raise (SystemExit (PBool b)) => if b then 1 else 0
  | Raise (SystemExit (PStr _)) => 1
  | Raise _ => 1
  end.

(** Running the script: the output and the exit status. *)
Definition run_script (w : World) (args : Args) : Z * list line :=
  let '(r, out) := main w args in (exit_status r, out).

(** ** Vocabulary of the statements *)

(** The keyword spellings that [check_license_tag] recognises. *)
Definition is_andor (tok : string) : bool :=
  str_in_list tok ["and"; "AND"; "or"; "OR"].
Definition is_with (tok : string) : bool :=
  str_in_list tok ["with"; "WITH"].

(** An identifier: a non-empty token without spaces or parentheses that is
    not one of the recognised keyword spellings. *)
Definition identifier (tok : string) : bool :=
  negb (String.eqb tok EmptyString)
  && str_forallb (λ c, negb (char_in c " ()")) tok
  && negb (is_andor tok) && negb (is_with tok).

Definition license_id (spdx_data : SpdxData) (tok : string) : bool :=
  identifier tok && py_in tok (spdx_licenses spdx_data).
Definition exception_id (spdx_data : SpdxData) (tok : string) : bool :=
  identifier tok && py_in tok (spdx_exceptions spdx_data).

(** The token sequences of the expressions
    [term (AND|OR term)*] with [term ::= license | license WITH exception],
    over the identifiers of the catalog and the recognised keyword
    spellings. *)
Fixpoint license_expression (spdx_data : SpdxData) (toks : list string) : bool :=
  match toks with
  | [] => false
  | l :: rest =>
      license_id spdx_data l &&
      match rest with
      | [] => true
      | k :: rest1 =>
          if is_andor k then license_expression spdx_data rest1
          else if is_with k then
            match rest1 with
            | [] => false
            | e :: rest2 =>
                exception_id spdx_data e &&
                match rest2 with
                | [] => true
                | k2 :: rest3 => is_andor k2 && license_expression spdx_data rest3
                end
            end
          else false
      end
  end.

(** The loop variables after a token that neither opens nor closes a
    parenthesis. *)
Definition after_token (ec : nat) (flag : bool) (v : LoopVars) : LoopVars :=
  {| error_count := ec; license_exception_flag := flag;
     paren_depth := paren_depth v; last_paren_depth := paren_depth v |}.

(** The line that [print_error(indent_level, error_str)] prints. *)
Definition error_line (indent_level : nat) (error_str : string) : line :=
  Colored "red" (repeat_str tab indent_level +:+ "ERROR: " +:+ error_str).

Definition is_warning (l : line) : bool :=
  match l with
  | Colored color _ => String.eqb color "cyan"
  | Plain _ => false
  end.

(** What [validate_submodule_repo] prints and counts for the URL check,
    the failed lookup of the version, and the revision check. *)
Definition url_mismatch (w : World) (url origin_url : string) : bool :=
  negb (String.eqb (str_lower w origin_url) (str_lower w url)).

Definition url_mismatch_line : line :=
  error_line 1 "Repository url mismatch between manifest and submodule.".

Definition url_lines (w : World) (url origin_url : string) : list line :=
  [Plain ("    Manifest URL:     " +:+ url);
   Plain ("    Submodule URL:    " +:+ origin_url)]
  ++ (if url_mismatch w url origin_url then [url_mismatch_line] else []).

(** Two characters that are the same, or the same letter of A to Z in
    upper and lower case; two texts that differ at most in the case of
    such letters. *)
Definition same_letter (c d : ascii) : bool :=
  Ascii.eqb c d
  || (is_upper c && (nat_of_ascii c + 32 =? nat_of_ascii d)%nat)
  || (is_upper d && (nat_of_ascii d + 32 =? nat_of_ascii c)%nat).

Fixpoint equal_ignoring_case (a b : string) : bool :=
  match a, b with
  | EmptyString, EmptyString => true
  | String c a', String d b' => same_letter c d && equal_ignoring_case a' b'
  | _, _ => false
  end.

Definition bad_version_line : line :=
  error_line 1 ("Manifest " +:+ dq +:+ "version" +:+ dq +:+
                " is not a valid tag or branch in the submodule.").

Definition revision_mismatch_line : line :=
  error_line 1 "Revision mismatch between submodule and manifest version.".

Definition revision_lines (version manifest_hash head : string) : list line :=
  [Plain ("    Manifest Version: " +:+ version);
   Plain ("    Manifest hash:    " +:+ manifest_hash);
   Plain ("    Submodule hash:   " +:+ head)]
  ++ (if negb (String.eqb head manifest_hash) then [revision_mismatch_line]
      else []).

Definition count (b : bool) : nat := if b then 1%nat else 0%nat.

(** The on-disk submodule paths that the manifest does not declare, and
    the error printed for one. *)
Definition undeclared (manifest_repos git_submodules : list string)
    : list string :=
  filter (λ submodule, submodule ∉ manifest_repos) git_submodules.

Definition undeclared_line (submodule : string) : line :=
  error_line 0 ("Git submodule " +:+ submodule +:+
                " was not found in the manifest.").

(** A commit hash as git prints it: forty lowercase hexadecimal digits. *)
Definition is_hexsha (s : string) : bool :=
  (String.length s =? 40)%nat && str_forallb (λ c, char_in c "0123456789abcdef") s.

Definition is_error (l : line) : bool :=
  match l with
  | Colored color _ => String.eqb color "red"
  | Plain _ => false
  end.

(** [count] of a field that a dictionary lacks. *)
Definition missing {V} (key : string) (d : gmap string V) : nat :=
  count (negb (py_in key d)).

(** Every identifier of the first catalog is in the second, set by set. *)
Definition catalog_included (small large : SpdxData) : Prop :=
  (∀ k, py_in k (spdx_licenses small) = true →
        py_in k (spdx_licenses large) = true)
  ∧ (∀ k, py_in k (spdx_exceptions small) = true →
          py_in k (spdx_exceptions large) = true).

(** The loop variables before the first token. *)
Definition initial_vars : LoopVars :=
  {| error_count := 0; license_exception_flag := false;
     paren_depth := 0; last_paren_depth := 0 |}.

(** The lines that [check_license_tag] prints for an identifier that is
    not in the set it is looked up in. *)
Definition invalid_license_line (tok cur_license : string) : line :=
  error_line 0 ("Invalid license id " +:+ tok +:+
                " in SPDX tag " +:+ cur_license).
Definition invalid_exception_line (tok cur_license : string) : line :=
  error_line 0 ("Invalid license exception id " +:+ tok +:+
                " in SPDX tag " +:+ cur_license).

Definition is_keyword (tok : string) : bool := is_andor tok || is_with tok.

(** Two runs of the loop in step: the same flag and depths, and the first
    has counted no more than the second. *)
Definition in_step (v v' : LoopVars) : Prop :=
  license_exception_flag v = license_exception_flag v'
  ∧ paren_depth v = paren_depth v'
  ∧ last_paren_depth v = last_paren_depth v'
  ∧ (error_count v ≤ error_count v')%nat.

(** The path that a dependency declares, if its repository stanza has
    one. *)
Definition declared_path (dep : Dependency) : option string :=
  repo ← dep_repository dep; repo !! "path".

(** The records of a download all carry the given key. *)
Definition records_have (key : string) (records : list (gmap string string))
    : Prop :=
  Forall (λ r, is_Some (r !! key)) records.

(** A catalog and a world to evaluate the script on. *)
Module Sample.

Definition catalog : SpdxData :=
  {| spdx_licenses := {["MIT" := true; "Apache-2.0" := true]};
     spdx_exceptions := {["LLVM-exception" := true]} |}.

Definition sha_a : string := "0123456789abcdef0123456789abcdef01234567".
Definition sha_b : string := "89abcdef0123456789abcdef0123456789abcdef".

(** The checked-out submodule [libs/x]: the tag [v1.0] exists, [V1.0] and
    [v9] do not, and no object has another hash than [sha_a]. *)
Definition submodule_x : GitRepo :=
  {| remotes_origin_url := "git@example.com:x.git";
     commit_hexsha := λ rev,
       if String.eqb rev "v1.0" || String.eqb rev sha_a then Ok sha_a
       else if is_hexsha rev then Raise ValueError
       else Raise BadName;
     head_commit_hexsha := sha_a;
     submodules_abspath := [] |}.

Definition root_repo : GitRepo :=
  {| remotes_origin_url := "git@example.com:root.git";
     commit_hexsha := λ _, Raise BadName;
     head_commit_hexsha := sha_b;
     submodules_abspath := ["/r/libs/x"] |}.

Definition dep_of (version : string) (repo : gmap string string) : Dependency :=
  {| dep_fields := {["name" := "x"; "version" := version; "license" := "MIT"]};
     dep_repository := Some repo |}.

Definition repo_x : gmap string string :=
  {["type" := "git"; "url" := "GIT@EXAMPLE.COM:X.git"; "path" := "libs/x"]}.

(** A repository stanza without ["type"]. *)
Definition repo_untyped : gmap string string :=
  {["url" := "git@example.com:x.git"]}.

Definition license_records : list (gmap string string) :=
  [ {["licenseId" := "MIT"]} ].
Definition exception_records : list (gmap string string) :=
  [ {["licenseExceptionId" := "LLVM-exception"]} ].
Definition spdx_json : Json :=
  {["licenses" := license_records; "exceptions" := exception_records]}.

Definition world (manifest : Manifest) : World :=
  {| os_path_abspath := λ p, p;
     os_path_exists := λ p, true;
     os_path_dirname := λ p, "/r";
     os_path_join := λ a b, a +:+ "/" +:+ b;
     os_path_relpath := λ p start, "libs/x";
     git_Repo := λ p,
       if String.eqb p "/r" then Ok root_repo
       else if String.eqb p "/r/libs/x" then Ok submodule_x
       else Raise InvalidGitRepositoryError;
     yaml_load_file := λ p, Ok manifest;
     requests_get_json := λ url, Ok spdx_json;
     str_of_dependency := λ d, "{dependency}";
     str_of_mapping := λ d, "{repository}";
     unicode_lower := λ s, s |}.

Definition manifest_of (deps : list Dependency) : Manifest :=
  {| manifest_fields :=
       {["name" := "project"; "version" := "1"; "description" := "d";
         "license" := "MIT"]};
     manifest_dependencies := Some deps |}.

Definition args : Args :=
  {| manifest_path := "/r/manifest.yml"; ignore_paths := []; ignore_spdx := [] |}.

(** The catalog with one more license. *)
Definition catalog_with_gpl : SpdxData :=
  {| spdx_licenses := <["GPL-2.0" := true]> (spdx_licenses catalog);
     spdx_exceptions := spdx_exceptions catalog |}.

(** The same world with other answers from the file system, from git and
    from the network. *)
Definition world_of (path_exists : string → bool)
    (repo_at : string → result GitRepo) (fetch : string → result Json)
    (manifest : Manifest) : World :=
  {| os_path_abspath := os_path_abspath (world manifest);
     os_path_exists := path_exists;
     os_path_dirname := os_path_dirname (world manifest);
     os_path_join := os_path_join (world manifest);
     os_path_relpath := os_path_relpath (world manifest);
     git_Repo := repo_at;
     yaml_load_file := yaml_load_file (world manifest);
     requests_get_json := fetch;
     str_of_dependency := str_of_dependency (world manifest);
     str_of_mapping := str_of_mapping (world manifest);
     unicode_lower := unicode_lower (world manifest) |}.

(** A manifest without dependencies, version and description. *)
Definition manifest_bare : Manifest :=
  {| manifest_fields := {["name" := "project"; "license" := "MIT"]};
     manifest_dependencies := None |}.

(** A repository stanza whose path is not checked out, and one without
    ["url"]. *)
Definition repo_svn : gmap string string :=
  {["type" := "svn"; "path" := "libs/z"]}.
Definition repo_without_url : gmap string string :=
  {["type" := "git"; "path" := "libs/x"]}.

(** A repository stanza whose URL names another repository. *)
Definition repo_y : gmap string string :=
  {["type" := "git"; "url" := "git@example.com:y.git"; "path" := "libs/x"]}.

(** A dependency without ["version"]. *)
Definition dep_unversioned : Dependency :=
  {| dep_fields := {["name" := "x"; "license" := "MIT"]};
     dep_repository := Some repo_x |}.

(** A download without its top-level key. *)
Definition json_without_key : Json := {["data" := license_records]}.

End Sample.

(** ** Proof automation *)

(** Runs the monadic plumbing of a computation as far as its data allow. *)
Ltac run :=
  cbv beta iota zeta delta
    [mbind mret M_bind M_ret print_error print_warning print cprint emit
     raise lift str_mul py_assert try_except_BadName app negb].

(** Decides whether a given line is among lines of known shape. *)
Ltac absent_line :=
  let H := fresh in
  intros H;
  repeat (apply elem_of_cons in H as [H|H];
          [try discriminate H; vm_compute in H; discriminate H|]);
  by apply elem_of_nil in H.

Ltac present_line :=
  repeat first [ apply list_elem_of_here | apply list_elem_of_further ].

(** * Properties *)

(** ** The monad and the loop *)

Lemma bind_Ok {A B} (m : M A) (k : A → M B) a out :
  m = (Ok a, out) → m ≫= k = ((k a).1, out ++ (k a).2).
Proof. intros ->. unfold mbind, M_bind. by destruct (k a). Qed.

Lemma bind_Raise {A B} (m : M A) (k : A → M B) e out :
  m = (Raise e, out) → m ≫= k = (Raise e, out).
Proof. by intros ->. Qed.

Lemma bind_quiet {A B} (m : M A) (k : A → M B) a :
  m = (Ok a, []) → m ≫= k = k a.
Proof. intros ->. unfold mbind, M_bind. by destruct (k a). Qed.

Lemma for_each_app {A S} (body : S → A → M S) xs ys s :
  for_each body (xs ++ ys) s = (s' ← for_each body xs s; for_each body ys s').
Proof.
  revert s. induction xs as [|x xs IH]; intros s; simpl.
  - unfold mbind, mret, M_bind, M_ret. by destruct (for_each body ys s).
  - unfold mbind, M_bind in *. destruct (body s x) as [[s1|e] o1]; [|done].
    rewrite IH. destruct (for_each body xs s1) as [[s2|e] o2]; [|done].
    destruct (for_each body ys s2) as [r o3]. by rewrite app_assoc.
Qed.

(** ** Strings *)

Lemma split_nonempty sep s : split sep s ≠ [].
Proof.
  destruct s as [|c r]; simpl; [done|].
  destruct (Ascii.eqb c sep); [done|]. by destruct (split sep r).
Qed.

Lemma split_app sep a b :
  split sep (a +:+ String sep b) = split sep a ++ split sep b.
Proof.
  induction a as [|c a IH]; simpl.
  - by rewrite Ascii.eqb_refl.
  - destruct (Ascii.eqb c sep); [by rewrite IH|].
    rewrite IH. pose proof (split_nonempty sep a).
    by destruct (split sep a).
Qed.

Lemma split_no_sep sep s :
  str_forallb (λ c, negb (Ascii.eqb c sep)) s = true → split sep s = [s].
Proof.
  induction s as [|c r IH]; simpl; [done|].
  intros [Hc Hr]%andb_prop. rewrite (negb_true_iff _) in Hc. rewrite Hc.
  by rewrite (IH Hr).
Qed.

Lemma split_join sep toks :
  toks ≠ [] →
  Forall (λ t, str_forallb (λ c, negb (Ascii.eqb c sep)) t = true) toks →
  split sep (join (String sep EmptyString) toks) = toks.
Proof.
  intros Hne Hall. induction Hall as [|t ts Ht Hts IH]; [done|].
  destruct ts as [|t' ts].
  - simpl. by apply split_no_sep.
  - change (join (String sep EmptyString) (t :: t' :: ts))
      with (t +:+ String sep (join (String sep EmptyString) (t' :: ts))).
    rewrite split_app, IH by done. by rewrite split_no_sep.
Qed.

Lemma lstrip_clean chars s :
  str_forallb (λ c, negb (char_in c chars)) s = true → lstrip chars s = s.
Proof.
  destruct s as [|c r]; simpl; [done|].
  intros [Hc _]%andb_prop. by rewrite (negb_true_iff _) in Hc; rewrite Hc.
Qed.

Lemma rstrip_clean chars s :
  str_forallb (λ c, negb (char_in c chars)) s = true → rstrip chars s = s.
Proof.
  induction s as [|c r IH]; simpl; [done|].
  intros [Hc Hr]%andb_prop. rewrite (IH Hr).
  rewrite (negb_true_iff _) in Hc. rewrite Hc. by destruct r.
Qed.

Lemma strip_clean chars s :
  str_forallb (λ c, negb (char_in c chars)) s = true → strip chars s = s.
Proof.
  intros H. unfold strip. by rewrite lstrip_clean, rstrip_clean.
Qed.

Lemma str_last_forallb p s :
  s ≠ EmptyString → str_forallb p s = true →
  ∃ c, str_last s = Ok c ∧ p c = true.
Proof.
  induction s as [|c r IH]; [done|]. intros _ [Hc Hr]%andb_prop.
  destruct r as [|c' r'].
  - exists c. done.
  - destruct IH as (d & Hd & Hpd); [done..|]. exists d. done.
Qed.

(** ** The tokens of [check_license_tag] *)

Section Tokens.
Context (spdx_data : SpdxData) (cur_license : string).

Lemma is_andor_cases tok :
  is_andor tok = true → tok = "and" ∨ tok = "AND" ∨ tok = "or" ∨ tok = "OR".
Proof.
  unfold is_andor, str_in_list. simpl.
  rewrite orb_false_r, !orb_true_iff, !String.eqb_eq. tauto.
Qed.

Lemma is_with_cases tok : is_with tok = true → tok = "with" ∨ tok = "WITH".
Proof.
  unfold is_with, str_in_list. simpl.
  rewrite orb_false_r, !orb_true_iff, !String.eqb_eq. tauto.
Qed.

Lemma token_andor v tok :
  is_andor tok = true →
  check_license_token spdx_data cur_license v tok
  = (Ok (after_token (error_count v) (license_exception_flag v) v), []).
Proof.
  intros H. destruct (is_andor_cases _ H) as [->|[->|[->| ->]]]; reflexivity.
Qed.

Lemma token_with v tok :
  is_with tok = true →
  check_license_token spdx_data cur_license v tok
  = (Ok (after_token (error_count v) true v), []).
Proof.
  intros H. destruct (is_with_cases _ H) as [->| ->]; reflexivity.
Qed.

Lemma identifier_shape tok :
  identifier tok = true →
  (∃ c0, str_first tok = Ok c0 ∧ Ascii.eqb c0 lparen = false)
  ∧ (∃ cl, str_last tok = Ok cl ∧ Ascii.eqb cl rparen = false)
  ∧ strip "()" tok = tok
  ∧ is_andor tok = false ∧ is_with tok = false.
Proof.
  unfold identifier. rewrite !andb_true_iff, !negb_true_iff.
  intros [[[Hne Hch] Hao] Hw].
  assert (tok ≠ EmptyString) as Hne' by (by intros ->).
  assert (∀ c, negb (char_in c " ()") = true →
               Ascii.eqb c lparen = false ∧ Ascii.eqb c rparen = false) as Hp.
  { intros c. simpl. unfold lparen, rparen.
    destruct (Ascii.eqb c " "), (Ascii.eqb c "("), (Ascii.eqb c ")"); done. }
  assert (str_forallb (λ c, negb (char_in c "()")) tok = true) as Hch'.
  { clear -Hch. induction tok as [|c r IH]; simpl in *; [done|].
    apply andb_prop in Hch as [Hc Hr]. rewrite (IH Hr), andb_true_r.
    destruct (Ascii.eqb c " "), (Ascii.eqb c "("), (Ascii.eqb c ")"); done. }
  repeat split; [| |by apply strip_clean|done..].
  - destruct tok as [|c r]; [done|]. exists c. split; [done|].
    simpl in Hch. apply andb_prop in Hch as [Hc _]. by apply Hp.
  - destruct (str_last_forallb _ tok Hne' Hch) as (c & Hc & Hpc).
    exists c. split; [done|]. by apply Hp.
Qed.

Lemma token_license v tok :
  identifier tok = true → license_exception_flag v = false →
  check_license_token spdx_data cur_license v tok
  = if py_in tok (spdx_licenses spdx_data)
    then (Ok (after_token (error_count v) false v), [])
    else (Ok (after_token (S (error_count v)) false v),
          [error_line 0 ("Invalid license id " +:+ tok +:+
                         " in SPDX tag " +:+ cur_license)]).
Proof.
  intros Hid Hflag.
  destruct (identifier_shape _ Hid)
    as ((c0 & Hc0 & Hl) & (cl & Hcl & Hr) & Hstrip & Hao & Hw).
  unfold check_license_token, is_andor, is_with in *.
  rewrite Hc0, Hcl, Hstrip, Hao, Hw, Hflag.
  destruct (py_in tok (spdx_licenses spdx_data)); simpl; by rewrite Hl, Hr.
Qed.

Lemma token_exception v tok :
  identifier tok = true → license_exception_flag v = true →
  paren_depth v ≤ last_paren_depth v →
  check_license_token spdx_data cur_license v tok
  = if py_in tok (spdx_exceptions spdx_data)
    then (Ok (after_token (error_count v) false v), [])
    else (Ok (after_token (S (error_count v)) false v),
          [error_line 0 ("Invalid license exception id " +:+ tok +:+
                         " in SPDX tag " +:+ cur_license)]).
Proof.
  intros Hid Hflag Hdepth.
  destruct (identifier_shape _ Hid)
    as ((c0 & Hc0 & Hl) & (cl & Hcl & Hr) & Hstrip & Hao & Hw).
  unfold check_license_token, is_andor, is_with in *.
  rewrite Hc0, Hcl, Hstrip, Hao, Hw, Hflag.
  apply Z.leb_le in Hdepth.
  destruct (py_in tok (spdx_exceptions spdx_data)); simpl;
    by rewrite Hl, Hr, Hdepth.
Qed.

End Tokens.

Lemma after_token_idem ec flag ec' flag' v :
  after_token ec flag (after_token ec' flag' v) = after_token ec flag v.
Proof. reflexivity. Qed.

Lemma for_each_cons_quiet {A S} (body : S → A → M S) x xs s s' :
  body s x = (Ok s', []) → for_each body (x :: xs) s = for_each body xs s'.
Proof. intros H. simpl. by apply bind_quiet. Qed.

(** Induction along the grammar of [license_expression]. *)
Lemma license_expression_induction spdx_data (P : list string → Prop) :
  (∀ l, license_id spdx_data l = true → P [l]) →
  (∀ l k rest, license_id spdx_data l = true → is_andor k = true →
     license_expression spdx_data rest = true → P rest → P (l :: k :: rest)) →
  (∀ l k e, license_id spdx_data l = true → is_with k = true →
     exception_id spdx_data e = true → P [l; k; e]) →
  (∀ l k e k2 rest, license_id spdx_data l = true → is_with k = true →
     exception_id spdx_data e = true → is_andor k2 = true →
     license_expression spdx_data rest = true → P rest →
     P (l :: k :: e :: k2 :: rest)) →
  ∀ toks, license_expression spdx_data toks = true → P toks.
Proof.
  intros H1 H2 H3 H4 toks.
  remember (length toks) as n eqn:Hn.
  assert (length toks ≤ n)%nat as Hlen by lia. clear Hn.
  revert toks Hlen. induction n as [|n IH]; intros toks Hlen Hexpr.
  { destruct toks; [done|simpl in Hlen; lia]. }
  destruct toks as [|l [|k rest1]]; simpl in *; [done| |].
  { apply H1. by rewrite andb_true_r in Hexpr. }
  apply andb_prop in Hexpr as [Hl Hexpr].
  destruct (is_andor k) eqn:Hk.
  { apply H2; [done..|]. apply IH; [lia|done]. }
  destruct (is_with k) eqn:Hw; [|done].
  destruct rest1 as [|e [|k2 rest3]]; [done| |].
  { apply H3; [done..|]. by rewrite andb_true_r in Hexpr. }
  apply andb_prop in Hexpr as [He [Hk2 Hexpr]%andb_prop].
  apply H4; [done..|]. apply IH; [simpl in Hlen; lia|done].
Qed.

Lemma identifier_no_space tok :
  identifier tok = true →
  str_forallb (λ c, negb (Ascii.eqb c " ")) tok = true.
Proof.
  unfold identifier. rewrite !andb_true_iff. intros [[[_ Hch] _] _].
  induction tok as [|c r IH]; simpl in *; [done|].
  apply andb_prop in Hch as [Hc Hr]. rewrite (IH Hr), andb_true_r.
  by destruct (Ascii.eqb c " ").
Qed.

Lemma is_andor_no_space tok :
  is_andor tok = true → str_forallb (λ c, negb (Ascii.eqb c " ")) tok = true.
Proof. intros [->|[->|[->| ->]]]%is_andor_cases; reflexivity. Qed.

Lemma is_with_no_space tok :
  is_with tok = true → str_forallb (λ c, negb (Ascii.eqb c " ")) tok = true.
Proof. intros [->| ->]%is_with_cases; reflexivity. Qed.

Lemma license_expression_tokens spdx_data toks :
  license_expression spdx_data toks = true →
  toks ≠ [] ∧
  Forall (λ t, str_forallb (λ c, negb (Ascii.eqb c " ")) t = true) toks.
Proof.
  revert toks. unfold license_id, exception_id.
  apply (license_expression_induction spdx_data);
    [intros l Hl|intros l k rest Hl Hk _ [_ IH]|intros l k e Hl Hk He
    |intros l k e k2 rest Hl Hk He Hk2 _ [_ IH]];
    (split; [done|]);
    apply andb_prop in Hl as [Hl _]; try apply andb_prop in He as [He _];
    repeat first [ done | apply Forall_cons; split
                 | by apply identifier_no_space
                 | by apply is_andor_no_space | by apply is_with_no_space ].
Qed.

Lemma license_expression_loop spdx_data cur_license toks :
  license_expression spdx_data toks = true →
  ∀ v, license_exception_flag v = false →
  for_each (check_license_token spdx_data cur_license) toks v
  = (Ok (after_token (error_count v) false v), []).
Proof.
  revert toks. unfold license_id, exception_id.
  apply (license_expression_induction spdx_data (λ toks,
           ∀ v, license_exception_flag v = false →
                for_each (check_license_token spdx_data cur_license) toks v
                = (Ok (after_token (error_count v) false v), [])));
    [intros l Hl|intros l k rest Hl Hk _ IH|intros l k e Hl Hk He
    |intros l k e k2 rest Hl Hk He Hk2 _ IH]; intros v Hflag;
    apply andb_prop in Hl as [Hl Hinl];
    try apply andb_prop in He as [He Hine];
    pose proof (token_license spdx_data cur_license v l Hl Hflag) as Sl;
    rewrite Hinl in Sl; rewrite (for_each_cons_quiet _ _ _ _ _ Sl).
  - done.
  - rewrite (for_each_cons_quiet _ _ _ _ _
               (token_andor spdx_data cur_license _ k Hk)).
    by rewrite IH.
  - rewrite (for_each_cons_quiet _ _ _ _ _
               (token_with spdx_data cur_license _ k Hk)).
    pose proof (token_exception spdx_data cur_license
                  (after_token (error_count v) true v) e He eq_refl
                  (Z.le_refl _)) as Se.
    rewrite Hine in Se. by rewrite (for_each_cons_quiet _ _ _ _ _ Se).
  - rewrite (for_each_cons_quiet _ _ _ _ _
               (token_with spdx_data cur_license _ k Hk)).
    pose proof (token_exception spdx_data cur_license
                  (after_token (error_count v) true v) e He eq_refl
                  (Z.le_refl _)) as Se.
    rewrite Hine in Se. rewrite (for_each_cons_quiet _ _ _ _ _ Se).
    rewrite (for_each_cons_quiet _ _ _ _ _
               (token_andor spdx_data cur_license _ k2 Hk2)).
    by rewrite IH.
Qed.

(** The outcome of an iteration, and of the loop, does not depend on the
    expression quoted in the messages. *)
Lemma check_license_token_message spdx_data c1 c2 v tok :
  (check_license_token spdx_data c1 v tok).1
  = (check_license_token spdx_data c2 v tok).1
  ∧ length (check_license_token spdx_data c1 v tok).2
    = length (check_license_token spdx_data c2 v tok).2.
Proof.
  unfold check_license_token.
  destruct (str_first tok) as [c0|ex]; [|done].
  destruct (str_last tok) as [cl|ex];
    destruct (str_in_list tok ["and"; "AND"; "or"; "OR"]),
      (str_in_list tok ["with"; "WITH"]), (license_exception_flag v),
      (py_in (strip "()" tok) (spdx_exceptions spdx_data)),
      (py_in (strip "()" tok) (spdx_licenses spdx_data)); done.
Qed.

Lemma for_each_token_message spdx_data c1 c2 toks v :
  (for_each (check_license_token spdx_data c1) toks v).1
  = (for_each (check_license_token spdx_data c2) toks v).1
  ∧ length (for_each (check_license_token spdx_data c1) toks v).2
    = length (for_each (check_license_token spdx_data c2) toks v).2.
Proof.
  revert v. induction toks as [|tok toks IH]; intros v; [done|]. simpl.
  destruct (check_license_token_message spdx_data c1 c2 v tok) as [H1 H2].
  unfold mbind, M_bind.
  destruct (check_license_token spdx_data c1 v tok) as [r1 o1],
           (check_license_token spdx_data c2 v tok) as [r2 o2].
  simpl in H1, H2. subst r2. destruct r1 as [v'|ex]; [|done].
  destruct (IH v') as [H3 H4].
  destruct (for_each (check_license_token spdx_data c1) toks v') as [r3 o3],
           (for_each (check_license_token spdx_data c2) toks v') as [r4 o4].
  simpl in *. rewrite !length_app. split; [done|lia].
Qed.

(** ** License expressions *)

Lemma valid_expression_no_errors spdx_data toks :
  license_expression spdx_data toks = true →
  check_license_tag spdx_data (join " " toks) = (Ok 0%nat, []).
Proof.
  intros Hexpr. unfold check_license_tag.
  destruct (license_expression_tokens _ _ Hexpr) as [Hne Hsp].
  rewrite (split_join " "%char toks Hne Hsp).
  by rewrite (license_expression_loop _ _ _ Hexpr).
Qed.

(** C1 (as amended): for every expression whose tokens, separated by single
    spaces, are identifiers of the catalog's license set joined by the
    keywords [and]/[AND]/[or]/[OR], each optionally followed by
    [with]/[WITH] and an identifier of the exception set,
    [check_license_tag] returns the error count 0 and prints nothing.  The
    keywords are recognised in their all-lowercase and all-uppercase
    spellings only. *)
Theorem check_license_tag_valid_expression spdx_data toks :
  license_expression spdx_data toks = true →
  check_license_tag spdx_data (join " " toks) = (Ok 0%nat, []).
Proof. apply valid_expression_no_errors. Qed.

Lemma check_license_tag_valid_expression_witness :
  license_expression Sample.catalog
    ["MIT"; "AND"; "Apache-2.0"; "with"; "LLVM-exception"] = true
  ∧ check_license_tag Sample.catalog "MIT AND Apache-2.0 with LLVM-exception"
    = (Ok 0%nat, []).
Proof.
  split; [vm_compute; reflexivity|].
  apply (check_license_tag_valid_expression Sample.catalog
           ["MIT"; "AND"; "Apache-2.0"; "with"; "LLVM-exception"]).
  vm_compute; reflexivity.
Defined.

(** C1 as stated fails: a keyword in mixed case, [And], is not skipped but
    looked up in the license set, and counted as an error although both
    identifiers of the expression are in the catalog. *)
Lemma check_license_tag_mixed_case_keyword :
  py_in "MIT" (spdx_licenses Sample.catalog) = true
  ∧ py_in "Apache-2.0" (spdx_licenses Sample.catalog) = true
  ∧ check_license_tag Sample.catalog "MIT And Apache-2.0"
    = (Ok 1%nat,
       [error_line 0 "Invalid license id And in SPDX tag MIT And Apache-2.0"]).
Proof. repeat split; vm_compute; reflexivity. Qed.

(** C3: on the empty expression [split] yields one empty token, and reading
    its first character raises [IndexError]: the function does not return
    an error count. *)
Theorem check_license_tag_empty_raises spdx_data :
  check_license_tag spdx_data EmptyString = (Raise IndexError, []).
Proof. reflexivity. Qed.

(** The same happens for an empty token between two adjacent spaces. *)
Lemma check_license_tag_double_space_raises :
  check_license_tag Sample.catalog "MIT  OR Apache-2.0" = (Raise IndexError, []).
Proof. vm_compute; reflexivity. Qed.

(** C10: a trailing [with]/[WITH] changes neither the outcome (the error
    count, or the exception) nor the number of lines printed; alone, or
    after a license of the catalog, it gives 0 errors and no output. *)
Theorem check_license_tag_trailing_with spdx_data kw :
  is_with kw = true →
  (∀ e,
     (check_license_tag spdx_data (e +:+ " " +:+ kw)).1
     = (check_license_tag spdx_data e).1
     ∧ length (check_license_tag spdx_data (e +:+ " " +:+ kw)).2
       = length (check_license_tag spdx_data e).2)
  ∧ check_license_tag spdx_data kw = (Ok 0%nat, [])
  ∧ (∀ l, license_id spdx_data l = true →
          check_license_tag spdx_data (l +:+ " " +:+ kw) = (Ok 0%nat, [])
          ∧ check_license_tag spdx_data l = (Ok 0%nat, [])).
Proof.
  intros Hkw.
  assert (∀ e, split " " (e +:+ " " +:+ kw) = split " " e ++ [kw]) as Hsplit.
  { intros e. change (e +:+ " " +:+ kw) with (e +:+ String " "%char kw).
    by rewrite split_app, (split_no_sep _ kw (is_with_no_space _ Hkw)). }
  split; [|split].
  - intros e. unfold check_license_tag. rewrite Hsplit, for_each_app.
    set (v0 := {| error_count := 0; license_exception_flag := false;
                  paren_depth := 0; last_paren_depth := 0 |}).
    destruct (for_each_token_message spdx_data (e +:+ " " +:+ kw) e
                (split " " e) v0) as [H1 H2].
    unfold mbind, M_bind.
    destruct (for_each (check_license_token spdx_data (e +:+ " " +:+ kw))
                (split " " e) v0) as [r1 o1],
             (for_each (check_license_token spdx_data e) (split " " e) v0)
               as [r2 o2].
    simpl in H1, H2. subst r2. destruct r1 as [v|ex]; [|done].
    simpl. rewrite (token_with _ _ _ _ Hkw). simpl.
    rewrite !length_app. simpl. split; [done|lia].
  - destruct (is_with_cases _ Hkw) as [->| ->]; reflexivity.
  - intros l Hl.
    assert (license_expression spdx_data [l] = true) as Hexpr
      by (simpl; by rewrite Hl).
    split; [|exact (valid_expression_no_errors spdx_data [l] Hexpr)].
    unfold check_license_tag. rewrite Hsplit, for_each_app.
    assert (split " " l = [l]) as ->.
    { apply split_no_sep, identifier_no_space.
      unfold license_id in Hl. by apply andb_prop in Hl as [? _]. }
    rewrite (license_expression_loop _ _ _ Hexpr) by done.
    unfold mbind, M_bind. simpl. by rewrite (token_with _ _ _ _ Hkw).
Qed.

Lemma check_license_tag_trailing_with_witness :
  is_with "WITH" = true
  ∧ check_license_tag Sample.catalog "MIT WITH"
    = check_license_tag Sample.catalog "MIT".
Proof.
  split; [reflexivity|].
  destruct (check_license_tag_trailing_with Sample.catalog "WITH" eq_refl)
    as (_ & _ & H).
  destruct (H "MIT") as [H1 H2]; [vm_compute; reflexivity|].
  exact (eq_trans H1 (eq_sym H2)).
Defined.

(** ** The catalog loader *)

Lemma py_in_insert {V} (k id : string) (x : V) (d : gmap string V) :
  py_in k (<[id := x]> d) = true ↔ k = id ∨ py_in k d = true.
Proof.
  unfold py_in. destruct (decide (id = k)) as [->|Hne].
  - rewrite lookup_insert_eq. tauto.
  - rewrite lookup_insert_ne by done.
    split; [by right|]. by intros [->|?].
Qed.

Lemma py_in_empty {V} (k : string) : py_in k (∅ : gmap string V) = false.
Proof. unfold py_in. by rewrite lookup_empty. Qed.

Lemma collect_ids_spec key records d :
  Forall (λ r : gmap string string, is_Some (r !! key)) records →
  ∃ d', collect_ids key records d = (Ok d', [])
        ∧ ∀ k, py_in k d' = true ↔
               py_in k d = true ∨ ∃ r, r ∈ records ∧ r !! key = Some k.
Proof.
  intros Hall. revert d. unfold collect_ids.
  induction Hall as [|r rs Hr _ IH]; intros d; [|destruct Hr as [id Hid]].
  - exists d. split; [done|]. intros k. split; [tauto|].
    intros [?|(r & Hr & _)]; [done|]. by apply elem_of_nil in Hr.
  - destruct (IH (<[id := true]> d)) as (d' & Hrun & Hd').
    exists d'. split.
    + rewrite <- Hrun. apply for_each_cons_quiet.
      unfold getitem. by rewrite Hid.
    + intros k. rewrite Hd', py_in_insert. split.
      * intros [[->|?]|(r' & Hr' & Hk)]; [right|by left|right].
        -- exists r. split; [apply list_elem_of_here|done].
        -- exists r'. split; [by apply list_elem_of_further|done].
      * intros [?|(r' & Hr' & Hk)]; [tauto|].
        apply elem_of_cons in Hr' as [->|Hr'].
        -- left; left. congruence.
        -- right. by exists r'.
Qed.

Lemma merge_ignored_spec (ids : list string) (d : gmap string bool) :
  ∃ d', for_each (λ d license, mret (<[license := true]> d)) ids d = (Ok d', [])
        ∧ ∀ k, py_in k d' = true ↔ py_in k d = true ∨ k ∈ ids.
Proof.
  revert d. induction ids as [|id ids IH]; intros d.
  - exists d. split; [done|]. intros k. rewrite elem_of_nil. tauto.
  - destruct (IH (<[id := true]> d)) as (d' & Hrun & Hd').
    exists d'. split.
    + rewrite <- Hrun. by apply for_each_cons_quiet.
    + intros k. rewrite Hd', py_in_insert, elem_of_cons. tauto.
Qed.

Section Loader.
Context (w : World) (ignore_spdx : list string).
Context (licenses exceptions : Json).
Context (license_records exception_records : list (gmap string string)).
Hypothesis fetch_licenses :
  requests_get_json w (spdx_url +:+ "master/json/licenses.json") = Ok licenses.
Hypothesis fetch_exceptions :
  requests_get_json w (spdx_url +:+ "master/json/exceptions.json") = Ok exceptions.
Hypothesis licenses_key : licenses !! "licenses" = Some license_records.
Hypothesis exceptions_key : exceptions !! "exceptions" = Some exception_records.
Hypothesis license_ids :
  Forall (λ r, is_Some (r !! "licenseId")) license_records.
Hypothesis exception_ids :
  Forall (λ r, is_Some (r !! "licenseExceptionId")) exception_records.

(** With both downloads well formed the loader returns the catalog whose
    license set holds the fetched license ids and the ignored ids, and whose
    exception set holds the fetched exception ids and nothing else. *)
Lemma load_spdx_data_spec :
  ∃ spdx_data,
    load_spdx_data w ignore_spdx
    = (Ok spdx_data, [Plain "Downloading SPDX license data..."])
    ∧ (∀ k, py_in k (spdx_licenses spdx_data) = true ↔
            (∃ r, r ∈ license_records ∧ r !! "licenseId" = Some k)
            ∨ k ∈ ignore_spdx)
    ∧ (∀ k, py_in k (spdx_exceptions spdx_data) = true ↔
            ∃ r, r ∈ exception_records ∧ r !! "licenseExceptionId" = Some k).
Proof.
  destruct (collect_ids_spec "licenseId" license_records ∅ license_ids)
    as (d1 & Hrun1 & Hd1).
  destruct (merge_ignored_spec ignore_spdx d1) as (d2 & Hrun2 & Hd2).
  destruct (collect_ids_spec "licenseExceptionId" exception_records ∅
              exception_ids) as (d3 & Hrun3 & Hd3).
  exists {| spdx_licenses := d2; spdx_exceptions := d3 |}. split; [|split].
  - unfold load_spdx_data, print, emit, py_assert, getitem, lift.
    rewrite fetch_licenses. cbn [mbind M_bind app]. unfold py_in.
    rewrite licenses_key. cbn [mbind M_bind mret M_ret app].
    rewrite Hrun1. cbn [mbind M_bind app]. rewrite Hrun2.
    rewrite fetch_exceptions. cbn [mbind M_bind app].
    rewrite exceptions_key. cbn [mbind M_bind mret M_ret app].
    rewrite Hrun3. reflexivity.
  - intros k. simpl. rewrite Hd2, Hd1, py_in_empty.
    split; [intros [[?|?]|?]|intros [?|?]]; auto; done.
  - intros k. simpl. rewrite Hd3, py_in_empty.
    split; [intros [?|?]|intros ?]; auto; done.
Qed.

End Loader.

Lemma for_each_cons_Ok {A S} (body : S → A → M S) x xs s s' out :
  body s x = (Ok s', out) →
  for_each body (x :: xs) s
  = ((for_each body xs s').1, out ++ (for_each body xs s').2).
Proof. intros H. simpl. by apply bind_Ok. Qed.

(** An identifier after [WITH] that is not in the exception set is one
    error. *)
Lemma unknown_exception_one_error spdx_data l kw id :
  license_id spdx_data l = true → is_with kw = true →
  identifier id = true → py_in id (spdx_exceptions spdx_data) = false →
  check_license_tag spdx_data (join " " [l; kw; id])
  = (Ok 1%nat,
     [error_line 0 ("Invalid license exception id " +:+ id +:+
                    " in SPDX tag " +:+ join " " [l; kw; id])]).
Proof.
  intros [Hl Hinl]%andb_prop Hkw Hid Hnot. unfold check_license_tag.
  rewrite (split_join " "%char [l; kw; id]); [|done|].
  2:{ repeat apply Forall_cons_2; [by apply identifier_no_space
      |by apply is_with_no_space|by apply identifier_no_space|done]. }
  set (c := join " " [l; kw; id]).
  set (v0 := {| error_count := 0; license_exception_flag := false;
                paren_depth := 0; last_paren_depth := 0 |}).
  pose proof (token_license spdx_data c v0 l Hl eq_refl) as Sl.
  rewrite Hinl in Sl. rewrite (for_each_cons_quiet _ _ _ _ _ Sl).
  rewrite (for_each_cons_quiet _ _ _ _ _ (token_with spdx_data c _ kw Hkw)).
  pose proof (token_exception spdx_data c (after_token 0 true v0) id Hid
                eq_refl (Z.le_refl _)) as Se.
  rewrite Hnot in Se. by rewrite (for_each_cons_Ok _ _ _ _ _ _ Se).
Qed.

(** C7: every ignored identifier is in the license set of the loaded
    catalog, and is in the exception set only if the fetched exception
    list has it; so as a license it validates with 0 errors, whether or not
    the fetched license list has it, and after [WITH] it is an error unless
    the fetched exception list has it. *)
Theorem load_spdx_data_ignored_identifier
    w ignore_spdx licenses exceptions license_records exception_records :
  requests_get_json w (spdx_url +:+ "master/json/licenses.json") = Ok licenses →
  requests_get_json w (spdx_url +:+ "master/json/exceptions.json") = Ok exceptions →
  licenses !! "licenses" = Some license_records →
  exceptions !! "exceptions" = Some exception_records →
  Forall (λ r, is_Some (r !! "licenseId")) license_records →
  Forall (λ r, is_Some (r !! "licenseExceptionId")) exception_records →
  ∃ spdx_data,
    load_spdx_data w ignore_spdx
    = (Ok spdx_data, [Plain "Downloading SPDX license data..."])
    ∧ ∀ id, id ∈ ignore_spdx →
        py_in id (spdx_licenses spdx_data) = true
        ∧ (py_in id (spdx_exceptions spdx_data) = true ↔
           ∃ r, r ∈ exception_records ∧ r !! "licenseExceptionId" = Some id)
        ∧ (identifier id = true →
           check_license_tag spdx_data id = (Ok 0%nat, []))
        ∧ (identifier id = true →
           Forall (λ r, r !! "licenseExceptionId" ≠ Some id) exception_records →
           ∀ l kw, license_id spdx_data l = true → is_with kw = true →
             check_license_tag spdx_data (l +:+ " " +:+ kw +:+ " " +:+ id)
             = (Ok 1%nat,
                [error_line 0
                   ("Invalid license exception id " +:+ id +:+ " in SPDX tag "
                    +:+ l +:+ " " +:+ kw +:+ " " +:+ id)])).
Proof.
  intros H1 H2 H3 H4 H5 H6.
  destruct (load_spdx_data_spec w ignore_spdx _ _ _ _ H1 H2 H3 H4 H5 H6)
    as (spdx_data & Hrun & Hlic & Hexc).
  exists spdx_data. split; [done|]. intros id Hin.
  assert (py_in id (spdx_licenses spdx_data) = true) as Hinl
    by (apply Hlic; by right).
  split; [done|]. split; [apply Hexc|]. split.
  - intros Hid.
    apply (valid_expression_no_errors spdx_data [id]).
    simpl. unfold license_id. by rewrite Hid, Hinl.
  - intros Hid Habsent l kw Hl Hkw.
    apply (unknown_exception_one_error spdx_data l kw id); [done..|].
    destruct (py_in id (spdx_exceptions spdx_data)) eqn:E; [|done].
    apply Hexc in E as (r & Hr & Hk).
    rewrite Forall_forall in Habsent. by destruct (Habsent r Hr).
Qed.

Lemma load_spdx_data_ignored_identifier_witness :
  ∃ spdx_data,
    load_spdx_data (Sample.world (Sample.manifest_of [])) ["Custom-1"]
    = (Ok spdx_data, [Plain "Downloading SPDX license data..."])
    ∧ check_license_tag spdx_data "Custom-1" = (Ok 0%nat, [])
    ∧ (check_license_tag spdx_data "Custom-1 WITH Custom-1").1 = Ok 1%nat.
Proof.
  destruct (load_spdx_data_ignored_identifier
              (Sample.world (Sample.manifest_of [])) ["Custom-1"]
              Sample.spdx_json Sample.spdx_json
              Sample.license_records Sample.exception_records)
    as (spdx_data & Hrun & H);
    [reflexivity|reflexivity|vm_compute; reflexivity|vm_compute; reflexivity
    |repeat constructor; eexists; vm_compute; reflexivity
    |repeat constructor; eexists; vm_compute; reflexivity|].
  exists spdx_data. split; [exact Hrun|].
  destruct (H "Custom-1") as (Hlic & _ & Hok & Hwith); [apply list_elem_of_here|].
  split; [apply Hok; reflexivity|].
  assert (license_id spdx_data "Custom-1" = true) as Hl.
  { unfold license_id. rewrite Hlic. reflexivity. }
  assert (Forall (λ r : gmap string string,
                    r !! "licenseExceptionId" ≠ Some "Custom-1")
            Sample.exception_records) as Habs.
  { repeat constructor. vm_compute. discriminate. }
  exact (f_equal fst (Hwith eq_refl Habs "Custom-1" "WITH" Hl eq_refl)).
Defined.

(** ** Submodules *)

Lemma is_hexsha_not_unknown s :
  is_hexsha s = true → String.eqb s "unknown" = false.
Proof.
  intros H. destruct (String.eqb s "unknown") eqn:E; [|done].
  apply String.eqb_eq in E. subst s. vm_compute in H. done.
Qed.

(** *** Lowercasing and letter case *)

Lemma nat_of_ascii_inj c d : nat_of_ascii c = nat_of_ascii d → c = d.
Proof.
  intros H. rewrite <- (ascii_nat_embedding c), <- (ascii_nat_embedding d).
  by rewrite H.
Qed.

Lemma is_upper_spec c :
  is_upper c = true ↔ (65 ≤ nat_of_ascii c ∧ nat_of_ascii c ≤ 90)%nat.
Proof.
  unfold is_upper. by rewrite andb_true_iff, !Nat.leb_le.
Qed.

Lemma nat_of_lower_ascii c :
  nat_of_ascii (lower_ascii c)
  = if is_upper c then (nat_of_ascii c + 32)%nat else nat_of_ascii c.
Proof.
  unfold lower_ascii. destruct (is_upper c) eqn:E; [|done].
  apply is_upper_spec in E. apply nat_ascii_embedding. lia.
Qed.

(** Two characters have the same lowercase form exactly when they are the
    same letter up to case. *)
Lemma lower_ascii_same_letter c d :
  lower_ascii c = lower_ascii d ↔ same_letter c d = true.
Proof.
  unfold same_letter.
  rewrite !orb_true_iff, !andb_true_iff, !Nat.eqb_eq, Ascii.eqb_eq,
    !is_upper_spec.
  split.
  - intros H. apply (f_equal nat_of_ascii) in H.
    rewrite !nat_of_lower_ascii in H.
    destruct (is_upper c) eqn:Ec, (is_upper d) eqn:Ed;
      try apply is_upper_spec in Ec; try apply is_upper_spec in Ed;
      try (apply not_true_iff_false in Ec; rewrite is_upper_spec in Ec);
      try (apply not_true_iff_false in Ed; rewrite is_upper_spec in Ed).
    + left; left. apply nat_of_ascii_inj. lia.
    + left; right. split; [done|lia].
    + right. split; [done|lia].
    + left; left. by apply nat_of_ascii_inj.
  - intros H. apply nat_of_ascii_inj. rewrite !nat_of_lower_ascii.
    destruct (is_upper c) eqn:Ec, (is_upper d) eqn:Ed;
      try apply is_upper_spec in Ec; try apply is_upper_spec in Ed;
      try (apply not_true_iff_false in Ec; rewrite is_upper_spec in Ec);
      try (apply not_true_iff_false in Ed; rewrite is_upper_spec in Ed);
      destruct H as [[->|H]|H]; lia.
Qed.

Lemma lower_equal_ignoring_case a b :
  lower a = lower b ↔ equal_ignoring_case a b = true.
Proof.
  revert b. induction a as [|c a IH]; intros [|d b]; simpl; try done.
  rewrite andb_true_iff, <- IH, <- lower_ascii_same_letter. split.
  - by intros [= -> ->].
  - by intros [-> ->].
Qed.

Lemma str_lower_ascii w s : is_ascii s = true → str_lower w s = lower s.
Proof. intros H. unfold str_lower. by rewrite H. Qed.

(** For ASCII URLs the comparison of the script fails exactly when the
    URLs differ in more than the case of letters. *)
Lemma url_mismatch_ascii w url origin_url :
  is_ascii origin_url = true → is_ascii url = true →
  url_mismatch w url origin_url = negb (equal_ignoring_case origin_url url).
Proof.
  intros Ho Hu. unfold url_mismatch.
  rewrite (str_lower_ascii w _ Ho), (str_lower_ascii w _ Hu). f_equal.
  destruct (equal_ignoring_case origin_url url) eqn:E.
  - apply String.eqb_eq. by apply lower_equal_ignoring_case.
  - apply String.eqb_neq. intros H%lower_equal_ignoring_case. congruence.
Qed.

Section Submodule.
Context (w : World) (dep : Dependency) (manifest_dir : string).
Context (repo : gmap string string) (path url version : string).
Context (submodule : GitRepo).
Hypothesis repository_key : dep_repository dep = Some repo.
Hypothesis path_key : repo !! "path" = Some path.
Hypothesis url_key : repo !! "url" = Some url.
Hypothesis version_key : dep_fields dep !! "version" = Some version.
Hypothesis opened : git_Repo w (os_path_join w manifest_dir path) = Ok submodule.

Abbreviation origin_url := (remotes_origin_url submodule).
Abbreviation head := (head_commit_hexsha submodule).

Ltac enter :=
  unfold validate_submodule_repo, getitem_repository, getitem;
  rewrite repository_key; run;
  rewrite path_key; run;
  rewrite opened; run;
  rewrite url_key, version_key;
  unfold url_lines, revision_lines, url_mismatch;
  destruct (String.eqb (str_lower w (remotes_origin_url submodule))
              (str_lower w url));
  run.

(** The version resolves as written. *)
Lemma validate_submodule_repo_resolved hexsha :
  commit_hexsha submodule version = Ok hexsha →
  String.eqb hexsha "unknown" = false →
  validate_submodule_repo w dep manifest_dir
  = (Ok (count (url_mismatch w url origin_url)
         + count (negb (String.eqb head hexsha)))%nat,
     url_lines w url origin_url ++ revision_lines version hexsha head).
Proof.
  intros Hv Hu. enter; rewrite Hv; run; rewrite Hu; run;
    destruct (String.eqb (head_commit_hexsha submodule) hexsha); reflexivity.
Qed.

(** The version is no ref as written and resolves in lowercase. *)
Lemma validate_submodule_repo_lowercase hexsha :
  commit_hexsha submodule version = Raise BadName →
  commit_hexsha submodule (str_lower w version) = Ok hexsha →
  validate_submodule_repo w dep manifest_dir
  = (Raise TypeError, url_lines w url origin_url ++ [bad_version_line]).
Proof.
  intros Hv Hl. enter; rewrite Hv; run;
    change (String.eqb "unknown" "unknown") with true; run;
    rewrite Hl; reflexivity.
Qed.


(** The lookup of the version fails with another exception than
    [BadName]: it leaves the function, after the URL check. *)
Lemma validate_submodule_repo_lookup_raises e :
  commit_hexsha submodule version = Raise e → e ≠ BadName →
  validate_submodule_repo w dep manifest_dir
  = (Raise e, url_lines w url origin_url).
Proof.
  intros Hv He. enter; rewrite Hv; destruct e; done.
Qed.

(** Whatever becomes of the version, the URL check comes first, prints its
    error exactly when the lowercased URLs differ, and a returned count is
    the number of URL and revision errors printed. *)
Lemma validate_submodule_repo_errors :
  (url_mismatch_line ∈ (validate_submodule_repo w dep manifest_dir).2 ↔
   url_mismatch w url (remotes_origin_url submodule) = true)
  ∧ ∀ n, (validate_submodule_repo w dep manifest_dir).1 = Ok n →
         n = (count (url_mismatch w url (remotes_origin_url submodule))
              + count (bool_decide
                  (revision_mismatch_line
                   ∈ (validate_submodule_repo w dep manifest_dir).2)))%nat.
Proof.
  unfold validate_submodule_repo, getitem_repository, getitem.
  rewrite repository_key; run. rewrite path_key; run. rewrite opened; run.
  rewrite url_key, version_key. unfold url_mismatch.
  destruct (String.eqb (str_lower w (remotes_origin_url submodule))
              (str_lower w url));
    run;
    (destruct (commit_hexsha submodule version) as [hexsha|e];
     [run; destruct (String.eqb hexsha "unknown"); run
     |destruct e; run;
      try (change (String.eqb "unknown" "unknown") with true; run)]);
    try (destruct (commit_hexsha submodule (str_lower w version))
           as [hexsha'|e']; [|destruct e']; run);
    try (destruct (String.eqb (head_commit_hexsha submodule) _); run);
    cbn [fst snd count];
    (split;
     [split;
      [first [ by intros _ | intros H; exfalso; revert H; absent_line ]
      |first [ discriminate | intros _; present_line ]]
     |intros n Hn; try discriminate Hn;
      injection Hn as <-;
      first [ rewrite bool_decide_eq_true_2 by present_line
            | rewrite bool_decide_eq_false_2 by absent_line ];
      reflexivity]).
Qed.

End Submodule.

(** C4: when the version is no ref as written and resolves after
    lowercasing, the call [print_warning(msg)] lacks the indentation
    argument and raises [TypeError], which the handler for [BadName] does
    not catch: no warning is printed and [validate_submodule_repo] does not
    return. *)
Theorem validate_submodule_repo_lowercase_raises
    w dep manifest_dir repo path url version submodule hexsha :
  dep_repository dep = Some repo →
  repo !! "path" = Some path →
  repo !! "url" = Some url →
  dep_fields dep !! "version" = Some version →
  git_Repo w (os_path_join w manifest_dir path) = Ok submodule →
  commit_hexsha submodule version = Raise BadName →
  commit_hexsha submodule (str_lower w version) = Ok hexsha →
  validate_submodule_repo w dep manifest_dir
  = (Raise TypeError,
     url_lines w url (remotes_origin_url submodule) ++ [bad_version_line])
  ∧ Forall (λ l, is_warning l = false)
      (validate_submodule_repo w dep manifest_dir).2.
Proof.
  intros H1 H2 H3 H4 H5 Hv Hl.
  rewrite (validate_submodule_repo_lowercase w dep manifest_dir repo path url
             version submodule H1 H2 H3 H4 H5 hexsha Hv Hl).
  split; [done|]. unfold url_lines. simpl.
  destruct (url_mismatch w url (remotes_origin_url submodule));
    repeat constructor.
Qed.

Lemma validate_submodule_repo_lowercase_raises_witness :
  commit_hexsha Sample.submodule_x "V1.0" = Raise BadName
  ∧ commit_hexsha Sample.submodule_x
      (str_lower (Sample.world (Sample.manifest_of [])) "V1.0")
    = Ok Sample.sha_a
  ∧ (validate_submodule_repo (Sample.world (Sample.manifest_of []))
       (Sample.dep_of "V1.0" Sample.repo_x) "/r").1 = Raise TypeError.
Proof.
  split; [reflexivity|]. split; [reflexivity|].
  refine (f_equal fst (proj1
    (validate_submodule_repo_lowercase_raises
       (Sample.world (Sample.manifest_of []))
       (Sample.dep_of "V1.0" Sample.repo_x) "/r" Sample.repo_x "libs/x"
       "GIT@EXAMPLE.COM:X.git" "V1.0" Sample.submodule_x Sample.sha_a
       _ _ _ _ _ _ _))); vm_compute; reflexivity.
Defined.




(** C8: the URL-mismatch error is printed if and only if the manifest URL
    and the URL of the submodule's [origin] differ after lowercasing both
    whole strings; for ASCII URLs that is, if and only if they differ in
    more than the case of letters, wherever in the URL.  A returned error
    count is the number of URL and revision errors printed. *)
Theorem validate_submodule_repo_url_check
    w dep manifest_dir repo path url version submodule :
  dep_repository dep = Some repo →
  repo !! "path" = Some path →
  repo !! "url" = Some url →
  dep_fields dep !! "version" = Some version →
  git_Repo w (os_path_join w manifest_dir path) = Ok submodule →
  (url_mismatch_line ∈ (validate_submodule_repo w dep manifest_dir).2 ↔
   str_lower w (remotes_origin_url submodule) ≠ str_lower w url)
  ∧ (is_ascii (remotes_origin_url submodule) = true → is_ascii url = true →
     (url_mismatch_line ∈ (validate_submodule_repo w dep manifest_dir).2 ↔
      equal_ignoring_case (remotes_origin_url submodule) url = false))
  ∧ ∀ n, (validate_submodule_repo w dep manifest_dir).1 = Ok n →
         n = (count (bool_decide
                (url_mismatch_line
                 ∈ (validate_submodule_repo w dep manifest_dir).2))
              + count (bool_decide
                  (revision_mismatch_line
                   ∈ (validate_submodule_repo w dep manifest_dir).2)))%nat.
Proof.
  intros H1 H2 H3 H4 H5.
  destruct (validate_submodule_repo_errors w dep manifest_dir repo path url
              version submodule H1 H2 H3 H4 H5) as [Hurl Hcount].
  assert (url_mismatch w url (remotes_origin_url submodule) = true ↔
          str_lower w (remotes_origin_url submodule) ≠ str_lower w url) as Hne.
  { unfold url_mismatch. rewrite negb_true_iff. apply String.eqb_neq. }
  split; [by rewrite Hurl|]. split.
  - intros Ho Hu. rewrite Hurl, (url_mismatch_ascii w _ _ Ho Hu).
    apply negb_true_iff.
  - intros n Hn. rewrite (Hcount n Hn). do 2 f_equal.
    destruct (url_mismatch w url (remotes_origin_url submodule)) eqn:E.
    + symmetry. apply bool_decide_eq_true_2. by apply Hurl.
    + symmetry. apply bool_decide_eq_false_2. rewrite Hurl. done.
Qed.

Lemma validate_submodule_repo_url_check_witness :
  (equal_ignoring_case "git@example.com:x.git" "GIT@EXAMPLE.COM:X.git" = true
   ∧ url_mismatch_line
     ∉ (validate_submodule_repo (Sample.world (Sample.manifest_of []))
          (Sample.dep_of "v1.0" Sample.repo_x) "/r").2)
  ∧ (equal_ignoring_case "git@example.com:x.git" "git@example.com:y.git"
     = false
     ∧ url_mismatch_line
       ∈ (validate_submodule_repo (Sample.world (Sample.manifest_of []))
            (Sample.dep_of "v1.0" Sample.repo_y) "/r").2).
Proof.
  split; (split; [reflexivity|]).
  - intros Hin.
    pose proof (proj1 (proj1 (proj2
      (validate_submodule_repo_url_check
         (Sample.world (Sample.manifest_of []))
         (Sample.dep_of "v1.0" Sample.repo_x) "/r" Sample.repo_x "libs/x"
         "GIT@EXAMPLE.COM:X.git" "v1.0" Sample.submodule_x
         eq_refl eq_refl eq_refl eq_refl eq_refl)) eq_refl eq_refl) Hin) as H.
    discriminate H.
  - refine (proj2 (proj1 (proj2
      (validate_submodule_repo_url_check
         (Sample.world (Sample.manifest_of []))
         (Sample.dep_of "v1.0" Sample.repo_y) "/r" Sample.repo_y "libs/x"
         "git@example.com:y.git" "v1.0" Sample.submodule_x
         _ _ _ _ _)) _ _) _); vm_compute; reflexivity.
Defined.

(** ** Repository stanzas *)

(** C2: for a repository stanza without ["type"] the missing field is
    printed as an error, and the next statement reads [repo["type"]] and
    raises [KeyError]: [validate_repository] returns no error count. *)
Theorem validate_repository_missing_type_raises w dep manifest_dir repo :
  dep_repository dep = Some repo →
  repo !! "type" = None →
  validate_repository w dep manifest_dir
  = (Raise (KeyError "type"),
     [Plain ("Validating repo:      " +:+
             (if py_in "name" (dep_fields dep) then str_of_dependency w dep
              else str_of_mapping w repo));
      error_line 1 (dq +:+ "type" +:+ dq +:+ " field not found in repository.")]).
Proof.
  intros Hrepo Htype. unfold validate_repository, getitem_repository.
  rewrite Hrepo. run. unfold py_in, getitem. rewrite Htype. reflexivity.
Qed.

Lemma validate_repository_missing_type_raises_witness :
  Sample.repo_untyped !! "type" = None
  ∧ (validate_repository (Sample.world (Sample.manifest_of []))
       (Sample.dep_of "v1.0" Sample.repo_untyped) "/r").1
    = Raise (KeyError "type").
Proof.
  split; [vm_compute; reflexivity|].
  refine (f_equal fst
    (validate_repository_missing_type_raises
       (Sample.world (Sample.manifest_of []))
       (Sample.dep_of "v1.0" Sample.repo_untyped) "/r" Sample.repo_untyped
       _ _)); vm_compute; reflexivity.
Defined.

(** The exception leaves [validate_manifest] as well: a manifest that is
    complete but for that field gives no total. *)
Lemma validate_manifest_missing_type_raises :
  validate_manifest
    (Sample.world
       (Sample.manifest_of [Sample.dep_of "v1.0" Sample.repo_untyped]))
    "/r/manifest.yml" [] Sample.catalog
  = (Raise (KeyError "type"),
     [Plain "Validating SPDX license tag: MIT";
      Plain "Validating SPDX license tag: MIT";
      Plain "Validating repo:      {dependency}";
      error_line 1 (dq +:+ "type" +:+ dq +:+ " field not found in repository.")]).
Proof. vm_compute; reflexivity. Qed.

(** ** Undeclared submodules *)

Lemma str_in_list_elem_of x l : str_in_list x l = true ↔ x ∈ l.
Proof.
  unfold str_in_list. rewrite existsb_exists. split.
  - intros (y & Hy & ->%String.eqb_eq). by apply list_elem_of_In.
  - intros Hin. exists x. split; [by apply list_elem_of_In|].
    apply String.eqb_refl.
Qed.

Lemma check_for_missing_submodules_loop manifest_repos git_submodules n :
  for_each (λ error_count submodule,
              if negb (str_in_list submodule manifest_repos) then
                print_error [PInt 0;
                  PStr ("Git submodule " +:+ submodule +:+
                        " was not found in the manifest.")];;
                mret (error_count + 1)%nat
              else mret error_count)
    git_submodules n
  = (Ok (n + length (undeclared manifest_repos git_submodules))%nat,
     undeclared_line <$> undeclared manifest_repos git_submodules).
Proof.
  revert n. unfold undeclared.
  induction git_submodules as [|s subs IH]; intros n.
  - simpl. unfold mret, M_ret. by rewrite Nat.add_0_r.
  - rewrite filter_cons. destruct (decide (s ∉ manifest_repos)) as [Hs|Hs].
    + assert (str_in_list s manifest_repos = false) as E.
      { apply not_true_is_false. by rewrite str_in_list_elem_of. }
      rewrite (for_each_cons_Ok _ _ _ _ (n + 1)%nat [undeclared_line s])
        by (by rewrite E).
      rewrite IH. simpl. do 2 f_equal. lia.
    + assert (str_in_list s manifest_repos = true) as E.
      { apply str_in_list_elem_of. by apply dec_stable. }
      rewrite (for_each_cons_quiet _ _ _ _ n) by (by rewrite E).
      by rewrite IH.
Qed.

(** C6: [check_for_missing_submodules] counts, and prints one error for,
    each on-disk submodule path that is not among the declared paths; for
    paths without repetition this is the size of the set difference, and it
    is zero when every on-disk path is declared. *)
Theorem check_for_missing_submodules_count manifest_repos git_submodules :
  check_for_missing_submodules manifest_repos git_submodules
  = (Ok (length (undeclared manifest_repos git_submodules)),
     undeclared_line <$> undeclared manifest_repos git_submodules)
  ∧ (NoDup git_submodules →
     length (undeclared manifest_repos git_submodules)
     = size (list_to_set git_submodules ∖ list_to_set manifest_repos
             : gset string))
  ∧ (git_submodules ⊆ manifest_repos →
     check_for_missing_submodules manifest_repos git_submodules
     = (Ok 0%nat, [])).
Proof.
  assert (check_for_missing_submodules manifest_repos git_submodules
          = (Ok (length (undeclared manifest_repos git_submodules)),
             undeclared_line <$> undeclared manifest_repos git_submodules))
    as Hrun.
  { unfold check_for_missing_submodules.
    by rewrite check_for_missing_submodules_loop. }
  split; [done|]. split.
  - intros Hnd. unfold undeclared.
    rewrite <- (size_list_to_set (C := gset string)) by by apply NoDup_filter.
    f_equal. apply set_eq. intros x.
    rewrite elem_of_list_to_set, list_elem_of_filter, elem_of_difference,
      !elem_of_list_to_set. tauto.
  - intros Hsub. rewrite Hrun.
    assert (undeclared manifest_repos git_submodules = []) as ->; [|done].
    unfold undeclared. clear Hrun.
    induction git_submodules as [|s subs IH]; [done|].
    rewrite filter_cons_False.
    + apply IH. intros x Hx. apply Hsub. by apply list_elem_of_further.
    + intros Hs. apply Hs, Hsub, list_elem_of_here.
Qed.

Lemma check_for_missing_submodules_count_witness :
  NoDup ["a"; "b"; "c"]
  ∧ check_for_missing_submodules ["a"; "b"] ["a"; "b"; "c"]
    = (Ok 1%nat, [undeclared_line "c"])
  ∧ check_for_missing_submodules ["a"; "b"; "c"] ["a"; "b"]
    = (Ok 0%nat, []).
Proof.
  assert (NoDup ["a"; "b"; "c"]) as Hnd.
  { repeat (apply NoDup_cons; split; [absent_line|]). apply NoDup_nil_2. }
  split; [exact Hnd|].
  destruct (check_for_missing_submodules_count ["a"; "b"] ["a"; "b"; "c"])
    as (Hrun & Hsize & _).
  destruct (check_for_missing_submodules_count ["a"; "b"; "c"] ["a"; "b"])
    as (_ & _ & Hzero).
  split; [rewrite Hrun; vm_compute; reflexivity|].
  apply Hzero. intros x Hx.
  apply elem_of_cons in Hx as [->|Hx]; [apply list_elem_of_here|].
  apply list_elem_of_further.
  apply elem_of_cons in Hx as [->|Hx]; [apply list_elem_of_here|].
  by apply elem_of_nil in Hx.
Defined.

(** ** The exit status *)

Lemma ignored_paths_loop w manifest_dir ignore_paths :
  (for_each (λ (_ : unit) p,
               if negb (os_path_exists w (os_path_join w manifest_dir p)) then
                 print_error [PInt 0;
                   PStr ("Ignored path: " +:+ p +:+ " was not found.")]
               else mret tt)
     ignore_paths tt).1 = Ok tt.
Proof.
  induction ignore_paths as [|p ps IH]; [done|].
  destruct (os_path_exists w (os_path_join w manifest_dir p)) eqn:E.
  - rewrite (for_each_cons_quiet _ _ _ _ tt); [done|]. by rewrite E.
  - erewrite (for_each_cons_Ok _ _ _ _ tt); [done|]. by rewrite E.
Qed.

(** C9: when the catalog is loaded and [validate_manifest] returns a
    total, the script ends in [sys.exit(error_count > 0)]: the exit status
    is 1 when the total is positive and 0 when it is zero, never the total
    itself. *)
Theorem main_exit_status w args spdx_data out1 total out2 :
  os_path_exists w (os_path_abspath w (manifest_path args)) = true →
  load_spdx_data w (ignore_spdx args) = (Ok spdx_data, out1) →
  validate_manifest w (os_path_abspath w (manifest_path args))
    (ignore_paths args) spdx_data = (Ok total, out2) →
  (main w args).1 = Raise (SystemExit (PBool (0 <? total)%nat))
  ∧ (run_script w args).1 = (if (0 <? total)%nat then 1 else 0)
  ∧ ((run_script w args).1 ≠ 0 ↔ (0 < total)%nat).
Proof.
  intros Hexists Hload Hvalidate.
  assert ((main w args).1 = Raise (SystemExit (PBool (0 <? total)%nat)))
    as Hmain.
  { unfold main. rewrite Hexists. run.
    pose proof (ignored_paths_loop w
      (os_path_dirname w (os_path_abspath w (manifest_path args)))
      (ignore_paths args)) as Hloop.
    unfold print_error in Hloop. run.
    destruct (for_each _ (ignore_paths args) tt) as [r out0].
    simpl in Hloop. subst r. run. rewrite Hload. run.
    rewrite Hvalidate. reflexivity. }
  assert ((run_script w args).1 = (if (0 <? total)%nat then 1 else 0))
    as Hstatus.
  { unfold run_script. destruct (main w args) as [r out].
    simpl in Hmain. subst r. reflexivity. }
  split; [done|]. split; [done|]. rewrite Hstatus.
  destruct (0 <? total)%nat eqn:E.
  - apply Nat.ltb_lt in E. split; [done|]. by intros _.
  - apply Nat.ltb_ge in E. split; [done|]. lia.
Qed.

Lemma main_exit_status_witness :
  (run_script
     (Sample.world (Sample.manifest_of [Sample.dep_of "v9" Sample.repo_x]))
     Sample.args).1 = 1
  ∧ (run_script
       (Sample.world (Sample.manifest_of [Sample.dep_of "v1.0" Sample.repo_x]))
       Sample.args).1 = 0.
Proof.
  split.
  - refine (proj1 (proj2
      (main_exit_status
         (Sample.world (Sample.manifest_of [Sample.dep_of "v9" Sample.repo_x]))
         Sample.args
         {| spdx_licenses := {["MIT" := true]};
            spdx_exceptions := {["LLVM-exception" := true]} |}
         [Plain "Downloading SPDX license data..."] 1%nat _ _ _ _)));
      [reflexivity|vm_compute; reflexivity|vm_compute; reflexivity].
  - refine (proj1 (proj2
      (main_exit_status
         (Sample.world (Sample.manifest_of [Sample.dep_of "v1.0" Sample.repo_x]))
         Sample.args
         {| spdx_licenses := {["MIT" := true]};
            spdx_exceptions := {["LLVM-exception" := true]} |}
         [Plain "Downloading SPDX license data..."] 0%nat _ _ _ _)));
      [reflexivity|vm_compute; reflexivity|vm_compute; reflexivity].
Defined.

(** * Further properties of the script *)

(** ** [check_license_tag]: outcome, count and output *)

Lemma str_last_nonempty s : s ≠ EmptyString → ∃ c, str_last s = Ok c.
Proof.
  induction s as [|c r IH]; [done|]. intros _. destruct r as [|c' r'].
  - by exists c.
  - destruct IH as [d Hd]; [done|]. by exists d.
Qed.

(** An iteration on a non-empty token returns, having printed at most one
    line, an error, and counted it. *)
Lemma check_license_token_returns spdx_data cur_license v tok :
  tok ≠ EmptyString →
  ∃ v' out,
    check_license_token spdx_data cur_license v tok = (Ok v', out)
    ∧ error_count v' = (error_count v + length out)%nat
    ∧ (length out ≤ 1)%nat
    ∧ Forall (λ l, is_error l = true) out.
Proof.
  intros Hne. destruct (str_last_nonempty tok Hne) as [cl Hcl].
  destruct tok as [|c0 r]; [done|].
  unfold check_license_token. rewrite Hcl. cbn [str_first].
  destruct (str_in_list (String c0 r) ["and"; "AND"; "or"; "OR"]),
    (str_in_list (String c0 r) ["with"; "WITH"]),
    (license_exception_flag v),
    (py_in (strip "()" (String c0 r)) (spdx_exceptions spdx_data)),
    (py_in (strip "()" (String c0 r)) (spdx_licenses spdx_data));
    run; cbn [fst snd]; eexists _, _;
    (split; [reflexivity|]); cbn [error_count length];
    (split; [lia|]); (split; [lia|]); repeat constructor.
Qed.

Lemma license_loop_outcome spdx_data cur_license toks v :
  (length (for_each (check_license_token spdx_data cur_license) toks v).2
   ≤ length toks)%nat
  ∧ Forall (λ l, is_error l = true)
      (for_each (check_license_token spdx_data cur_license) toks v).2
  ∧ if bool_decide (EmptyString ∈ toks)
    then (for_each (check_license_token spdx_data cur_license) toks v).1
         = Raise IndexError
    else ∃ v',
      (for_each (check_license_token spdx_data cur_license) toks v).1 = Ok v'
      ∧ error_count v'
        = (error_count v
           + length (for_each (check_license_token spdx_data cur_license)
                       toks v).2)%nat.
Proof.
  revert v. induction toks as [|tok toks IH]; intros v.
  { rewrite bool_decide_eq_false_2 by apply not_elem_of_nil.
    simpl. repeat split; [lia|constructor|]. exists v. split; [done|lia]. }
  destruct (decide (tok = EmptyString)) as [->|Hne].
  { rewrite bool_decide_eq_true_2 by apply list_elem_of_here.
    simpl. repeat split; [lia|constructor]. }
  destruct (check_license_token_returns spdx_data cur_license v tok Hne)
    as (v1 & o1 & Hstep & Hec & Hlen & Herr).
  rewrite (for_each_cons_Ok _ _ _ _ _ _ Hstep).
  destruct (IH v1) as (IHlen & IHerr & IHout). cbn [fst snd].
  rewrite length_app. split; [simpl; lia|].
  split; [by apply Forall_app|].
  destruct (decide (EmptyString ∈ toks)) as [Hin|Hnin].
  - rewrite bool_decide_eq_true_2 in IHout by done.
    by rewrite bool_decide_eq_true_2 by by apply list_elem_of_further.
  - rewrite bool_decide_eq_false_2 in IHout by done.
    rewrite bool_decide_eq_false_2.
    + destruct IHout as (v' & Hv' & Hec'). exists v'. split; [done|lia].
    + intros [?|?]%elem_of_cons; done.
Qed.

Lemma check_license_tag_loop spdx_data cur_license :
  check_license_tag spdx_data cur_license
  = ((match (for_each (check_license_token spdx_data cur_license)
               (split " " cur_license) initial_vars).1 with
      | Ok v => Ok (error_count v)
      | Raise e => Raise e
      end),
     (for_each (check_license_token spdx_data cur_license)
        (split " " cur_license) initial_vars).2).
Proof.
  unfold check_license_tag, initial_vars, mbind, M_bind, mret, M_ret.
  cbv zeta. destruct (for_each _ _ _) as [[v|e] out]; [|done].
  cbn [fst snd]. by rewrite app_nil_r.
Qed.

Lemma check_license_tag_outcome spdx_data cur_license :
  (check_license_tag spdx_data cur_license).1
  = if bool_decide (EmptyString ∈ split " " cur_license)
    then Raise IndexError
    else Ok (length (check_license_tag spdx_data cur_license).2).
Proof.
  rewrite check_license_tag_loop. cbn [fst snd].
  destruct (license_loop_outcome spdx_data cur_license
              (split " " cur_license) initial_vars) as (_ & _ & Hout).
  destruct (bool_decide (EmptyString ∈ split " " cur_license)).
  - by rewrite Hout.
  - destruct Hout as (v' & -> & ->). reflexivity.
Qed.

(** [check_license_tag] fails exactly on the expressions with an empty
    token (the empty expression, a leading or trailing space, two adjacent
    spaces), always with [IndexError]; on every other expression it returns
    a count. *)
Theorem check_license_tag_raises_iff_empty_token spdx_data cur_license :
  (check_license_tag spdx_data cur_license).1
  = if bool_decide (EmptyString ∈ split " " cur_license)
    then Raise IndexError
    else Ok (length (check_license_tag spdx_data cur_license).2).
Proof. apply check_license_tag_outcome. Qed.

(** Whatever the outcome, [check_license_tag] prints only error lines, at
    most one per token; when it returns, the count is the number of lines
    it printed. *)
Theorem check_license_tag_count_is_output spdx_data cur_license :
  Forall (λ l, is_error l = true) (check_license_tag spdx_data cur_license).2
  ∧ (length (check_license_tag spdx_data cur_license).2
     ≤ length (split " " cur_license))%nat
  ∧ ∀ n, (check_license_tag spdx_data cur_license).1 = Ok n →
         n = length (check_license_tag spdx_data cur_license).2.
Proof.
  rewrite check_license_tag_loop. cbn [fst snd].
  destruct (license_loop_outcome spdx_data cur_license
              (split " " cur_license) initial_vars) as (Hlen & Herr & Hout).
  split; [done|]. split; [done|]. intros n Hn.
  destruct (bool_decide (EmptyString ∈ split " " cur_license)).
  - by rewrite Hout in Hn.
  - destruct Hout as (v' & Hv' & Hec). rewrite Hv' in Hn.
    injection Hn as <-. by rewrite Hec.
Qed.

Lemma check_license_tag_count_is_output_witness :
  (check_license_tag Sample.catalog "GPL OR (MIT WITH Foo)").1 = Ok 2%nat
  ∧ length (check_license_tag Sample.catalog "GPL OR (MIT WITH Foo)").2 = 2%nat.
Proof.
  assert ((check_license_tag Sample.catalog "GPL OR (MIT WITH Foo)").1
          = Ok 2%nat) as H by (vm_compute; reflexivity).
  split; [exact H|].
  destruct (check_license_tag_count_is_output Sample.catalog
              "GPL OR (MIT WITH Foo)") as (_ & _ & Hn).
  symmetry. exact (Hn 2%nat H).
Defined.

(** A single identifier that is not in the license set is exactly one
    error, whose line names the identifier. *)
Theorem check_license_tag_unknown_identifier spdx_data tok :
  identifier tok = true →
  py_in tok (spdx_licenses spdx_data) = false →
  check_license_tag spdx_data tok = (Ok 1%nat, [invalid_license_line tok tok]).
Proof.
  intros Hid Hnot. unfold check_license_tag.
  rewrite (split_no_sep " "%char tok (identifier_no_space _ Hid)).
  pose proof (token_license spdx_data tok initial_vars tok Hid eq_refl) as Hstep.
  rewrite Hnot in Hstep. fold initial_vars.
  by rewrite (for_each_cons_Ok _ _ _ _ _ _ Hstep).
Qed.

Lemma check_license_tag_unknown_identifier_witness :
  check_license_tag Sample.catalog "GPL-9.9"
  = (Ok 1%nat, [invalid_license_line "GPL-9.9" "GPL-9.9"]).
Proof.
  apply (check_license_tag_unknown_identifier Sample.catalog "GPL-9.9");
    vm_compute; reflexivity.
Defined.

(** ** [check_license_tag]: a larger catalog *)

Lemma check_license_token_in_step small large cur_license v v' tok :
  catalog_included small large → in_step v v' →
  match (check_license_token large cur_license v tok).1,
        (check_license_token small cur_license v' tok).1 with
  | Ok v1, Ok v1' => in_step v1 v1'
  | Raise e, Raise e' => e = e'
  | _, _ => False
  end.
Proof.
  intros [Hlic Hexc] (Hflag & Hdepth & Hlast & Hec).
  unfold check_license_token. rewrite Hflag, Hdepth, Hlast.
  destruct (str_first tok) as [c0|e]; [|done].
  destruct (str_last tok) as [cl|e];
    destruct (str_in_list tok ["and"; "AND"; "or"; "OR"]),
      (str_in_list tok ["with"; "WITH"]), (license_exception_flag v');
    try done;
    try (destruct (py_in (strip "()" tok) (spdx_exceptions small)) eqn:E;
         [apply Hexc in E; rewrite E
         |destruct (py_in (strip "()" tok) (spdx_exceptions large))]);
    try (destruct (py_in (strip "()" tok) (spdx_licenses small)) eqn:E;
         [apply Hlic in E; rewrite E
         |destruct (py_in (strip "()" tok) (spdx_licenses large))]);
    run; cbn [fst]; unfold in_step; cbn; repeat split; lia.
Qed.

Lemma license_loop_in_step small large cur_license toks v v' :
  catalog_included small large → in_step v v' →
  match (for_each (check_license_token large cur_license) toks v).1,
        (for_each (check_license_token small cur_license) toks v').1 with
  | Ok v1, Ok v1' => in_step v1 v1'
  | Raise e, Raise e' => e = e'
  | _, _ => False
  end.
Proof.
  intros Hinc. revert v v'. induction toks as [|tok toks IH]; intros v v' Hv.
  { done. }
  pose proof (check_license_token_in_step small large cur_license v v' tok
                Hinc Hv) as Hstep.
  simpl. unfold mbind, M_bind.
  destruct (check_license_token large cur_license v tok) as [[v1|e1] o1],
    (check_license_token small cur_license v' tok) as [[v1'|e1'] o1'];
    cbn [fst] in Hstep; try done.
  specialize (IH v1 v1' Hstep).
  destruct (for_each (check_license_token large cur_license) toks v1)
    as [r o],
    (for_each (check_license_token small cur_license) toks v1') as [r' o'].
  exact IH.
Qed.

(** Adding identifiers to the catalog never adds errors: on an expression
    for which [check_license_tag] returns a count with the smaller catalog,
    it returns a count with the larger one that is no greater. *)
Theorem check_license_tag_larger_catalog small large cur_license n :
  catalog_included small large →
  (check_license_tag small cur_license).1 = Ok n →
  ∃ n', (check_license_tag large cur_license).1 = Ok n' ∧ (n' ≤ n)%nat.
Proof.
  intros Hinc. rewrite !check_license_tag_loop. cbn [fst].
  assert (in_step initial_vars initial_vars) as Hstart by by repeat split.
  pose proof (license_loop_in_step small large cur_license
                (split " " cur_license) initial_vars initial_vars Hinc Hstart)
    as H.
  destruct (for_each (check_license_token large cur_license) _ _).1 as [v|e],
    (for_each (check_license_token small cur_license) _ _).1 as [v'|e'];
    intros Hn; try done.
  injection Hn as <-. exists (error_count v). split; [done|].
  by destruct H as (_ & _ & _ & Hle).
Qed.

Lemma check_license_tag_larger_catalog_witness :
  (check_license_tag Sample.catalog "GPL-2.0 OR MIT").1 = Ok 1%nat
  ∧ ∃ n', (check_license_tag Sample.catalog_with_gpl "GPL-2.0 OR MIT").1 = Ok n'
          ∧ (n' ≤ 1)%nat.
Proof.
  assert ((check_license_tag Sample.catalog "GPL-2.0 OR MIT").1 = Ok 1%nat)
    as H by (vm_compute; reflexivity).
  split; [exact H|].
  apply (check_license_tag_larger_catalog Sample.catalog
           Sample.catalog_with_gpl "GPL-2.0 OR MIT" 1%nat); [|exact H].
  split; intros k Hk; [|exact Hk].
  apply py_in_insert. by right.
Defined.

(** ** [check_license_tag]: keywords and parentheses *)

Lemma is_keyword_no_space tok :
  is_keyword tok = true →
  str_forallb (λ c, negb (Ascii.eqb c " ")) tok = true.
Proof.
  intros [H|H]%orb_prop; [by apply is_andor_no_space|by apply is_with_no_space].
Qed.

Lemma keyword_loop spdx_data cur_license toks v :
  forallb is_keyword toks = true →
  ∃ v', for_each (check_license_token spdx_data cur_license) toks v
        = (Ok v', [])
        ∧ error_count v' = error_count v.
Proof.
  revert v. induction toks as [|tok toks IH]; intros v Hall.
  { by exists v. }
  simpl in Hall. apply andb_prop in Hall as [Hk Hall].
  apply orb_prop in Hk as [Hk|Hk].
  - rewrite (for_each_cons_quiet _ _ _ _ _ (token_andor _ _ _ _ Hk)).
    destruct (IH (after_token (error_count v) (license_exception_flag v) v)
                Hall) as (v' & -> & Hec). by exists v'.
  - rewrite (for_each_cons_quiet _ _ _ _ _ (token_with _ _ _ _ Hk)).
    destruct (IH (after_token (error_count v) true v) Hall)
      as (v' & -> & Hec). by exists v'.
Qed.

(** An expression made of keywords only has nothing to look up: 0 errors
    and no output, however the keywords are arranged. *)
Theorem check_license_tag_keywords_only spdx_data toks :
  toks ≠ [] → forallb is_keyword toks = true →
  check_license_tag spdx_data (join " " toks) = (Ok 0%nat, []).
Proof.
  intros Hne Hall. unfold check_license_tag.
  rewrite (split_join " "%char toks Hne).
  - destruct (keyword_loop spdx_data (join " " toks) toks initial_vars Hall)
      as (v' & Hrun & Hec).
    fold initial_vars. rewrite Hrun. run. by rewrite Hec.
  - apply Forall_forall. intros t Ht. apply is_keyword_no_space.
    rewrite forallb_forall in Hall. by apply Hall, list_elem_of_In.
Qed.

Lemma check_license_tag_keywords_only_witness :
  check_license_tag Sample.catalog "WITH or AND with" = (Ok 0%nat, []).
Proof.
  apply (check_license_tag_keywords_only Sample.catalog
           ["WITH"; "or"; "AND"; "with"]); [discriminate|reflexivity].
Defined.

Lemma identifier_clean tok :
  identifier tok = true →
  tok ≠ EmptyString ∧ str_forallb (λ c, negb (char_in c "()")) tok = true.
Proof.
  unfold identifier. rewrite !andb_true_iff, !negb_true_iff.
  intros [[[Hne Hch] _] _]. split; [by intros ->|].
  clear Hne. induction tok as [|c r IH]; simpl in *; [done|].
  apply andb_prop in Hch as [Hc Hr]. rewrite (IH Hr), andb_true_r.
  destruct (Ascii.eqb c " "), (Ascii.eqb c "("), (Ascii.eqb c ")"); done.
Qed.

Lemma str_last_closing s : str_last (s +:+ ")") = Ok rparen.
Proof.
  induction s as [|c r IH]; [done|].
  change (String c r +:+ ")") with (String c (r +:+ ")")).
  simpl. rewrite IH. by destruct r.
Qed.

Lemma rstrip_closing s :
  str_forallb (λ c, negb (char_in c "()")) s = true →
  rstrip "()" (s +:+ ")") = s.
Proof.
  induction s as [|c r IH]; [done|]. intros [Hc Hr]%andb_prop.
  change (String c r +:+ ")") with (String c (r +:+ ")")).
  cbn [rstrip]. rewrite (IH Hr). rewrite (negb_true_iff _) in Hc.
  change (char_in c "()" = false) in Hc. rewrite Hc. by destruct r.
Qed.

Lemma strip_opening tok :
  identifier tok = true → strip "()" (String "(" tok) = tok.
Proof.
  intros [_ Hclean]%identifier_clean. unfold strip. cbn [lstrip char_in].
  cbn [Ascii.eqb Bool.eqb]. by rewrite lstrip_clean, rstrip_clean.
Qed.

Lemma strip_closing tok :
  identifier tok = true → strip "()" (tok +:+ ")") = tok.
Proof.
  intros [Hne Hclean]%identifier_clean. unfold strip.
  destruct tok as [|c r]; [done|].
  assert (lstrip "()" (String c r +:+ ")") = String c r +:+ ")") as ->.
  { simpl in Hclean. apply andb_prop in Hclean as [Hc _].
    rewrite (negb_true_iff _) in Hc.
    change (char_in c "()" = false) in Hc.
    change (String c r +:+ ")") with (String c (r +:+ ")")).
    cbn [lstrip]. by rewrite Hc. }
  by apply rstrip_closing.
Qed.

Lemma closing_not_keyword tok :
  is_andor (tok +:+ ")") = false ∧ is_with (tok +:+ ")") = false.
Proof.
  pose proof (str_last_closing tok) as Hlast. split.
  - destruct (is_andor (tok +:+ ")")) eqn:E; [|done].
    apply is_andor_cases in E as [E|[E|[E|E]]]; by rewrite E in Hlast.
  - destruct (is_with (tok +:+ ")")) eqn:E; [|done].
    apply is_with_cases in E as [E|E]; by rewrite E in Hlast.
Qed.

(** An iteration on a token that is not a keyword, from its first and last
    characters. *)
Lemma check_license_token_lookup spdx_data cur_license v tok c0 cl :
  str_first tok = Ok c0 → str_last tok = Ok cl →
  is_andor tok = false → is_with tok = false →
  check_license_token spdx_data cur_license v tok
  = let depth := if Ascii.eqb c0 lparen then paren_depth v + 1
                 else paren_depth v in
    let known :=
      py_in (strip "()" tok)
        (if license_exception_flag v then spdx_exceptions spdx_data
         else spdx_licenses spdx_data) in
    (Ok {| error_count := if known then error_count v else S (error_count v);
           license_exception_flag :=
             license_exception_flag v && negb (depth <=? last_paren_depth v);
           paren_depth := if Ascii.eqb cl rparen then depth - 1 else depth;
           last_paren_depth := depth |},
     if known then []
     else [if license_exception_flag v
           then invalid_exception_line tok cur_license
           else invalid_license_line tok cur_license]).
Proof.
  intros Hc0 Hcl Hao Hw. unfold check_license_token, is_andor, is_with in *.
  rewrite Hc0, Hcl, Hao, Hw. cbv zeta.
  destruct (license_exception_flag v);
    [destruct (py_in _ (spdx_exceptions spdx_data))
    |destruct (py_in _ (spdx_licenses spdx_data))];
    run; cbn [fst snd andb]; try reflexivity;
    by destruct (_ <=? _).
Qed.

Lemma token_opening spdx_data cur_license v tok :
  identifier tok = true →
  check_license_token spdx_data cur_license v (String "(" tok)
  = let known :=
      py_in tok (if license_exception_flag v then spdx_exceptions spdx_data
                 else spdx_licenses spdx_data) in
    (Ok {| error_count := if known then error_count v else S (error_count v);
           license_exception_flag :=
             license_exception_flag v
             && negb (paren_depth v + 1 <=? last_paren_depth v);
           paren_depth := paren_depth v + 1;
           last_paren_depth := paren_depth v + 1 |},
     if known then []
     else [if license_exception_flag v
           then invalid_exception_line (String "(" tok) cur_license
           else invalid_license_line (String "(" tok) cur_license]).
Proof.
  intros Hid.
  destruct (identifier_shape _ Hid) as (_ & (cl & Hcl & Hr) & _).
  destruct (identifier_clean _ Hid) as [Hne _].
  rewrite (check_license_token_lookup _ _ _ _ "("%char cl);
    [|done|by destruct tok|done|done].
  cbv zeta. rewrite (strip_opening _ Hid), Hr. reflexivity.
Qed.

Lemma token_closing spdx_data cur_license v tok :
  identifier tok = true →
  check_license_token spdx_data cur_license v (tok +:+ ")")
  = let known :=
      py_in tok (if license_exception_flag v then spdx_exceptions spdx_data
                 else spdx_licenses spdx_data) in
    (Ok {| error_count := if known then error_count v else S (error_count v);
           license_exception_flag :=
             license_exception_flag v
             && negb (paren_depth v <=? last_paren_depth v);
           paren_depth := paren_depth v - 1;
           last_paren_depth := paren_depth v |},
     if known then []
     else [if license_exception_flag v
           then invalid_exception_line (tok +:+ ")") cur_license
           else invalid_license_line (tok +:+ ")") cur_license]).
Proof.
  intros Hid.
  destruct (identifier_shape _ Hid) as ((c0 & Hc0 & Hl) & _).
  destruct (closing_not_keyword tok) as [Hao Hw].
  rewrite (check_license_token_lookup _ _ _ _ c0 rparen);
    [|by destruct tok|apply str_last_closing|done|done].
  cbv zeta. rewrite (strip_closing _ Hid), Hl. reflexivity.
Qed.

Lemma str_forallb_app p a b :
  str_forallb p (a +:+ b) = str_forallb p a && str_forallb p b.
Proof.
  induction a as [|c r IH]; [done|].
  change (String c r +:+ b) with (String c (r +:+ b)).
  simpl. by rewrite IH, andb_assoc.
Qed.

Lemma parenthesised_no_space tok :
  identifier tok = true →
  str_forallb (λ c, negb (Ascii.eqb c " ")) (String "(" tok) = true
  ∧ str_forallb (λ c, negb (Ascii.eqb c " ")) (tok +:+ ")") = true.
Proof.
  intros Hsp%identifier_no_space. split.
  - simpl. exact Hsp.
  - by rewrite str_forallb_app, Hsp.
Qed.

(** A parenthesised pair of licenses: the parentheses are stripped before
    the lookup, so [(a OR b)] over licenses of the catalog gives 0 errors
    and no output. *)
Theorem check_license_tag_parenthesised_pair spdx_data a k b :
  license_id spdx_data a = true → is_andor k = true →
  license_id spdx_data b = true →
  check_license_tag spdx_data (join " " [String "(" a; k; b +:+ ")"])
  = (Ok 0%nat, []).
Proof.
  intros [Ha Hina]%andb_prop Hk [Hb Hinb]%andb_prop. unfold check_license_tag.
  rewrite (split_join " "%char); [|done|].
  2:{ repeat apply Forall_cons_2;
        [apply (parenthesised_no_space _ Ha)|by apply is_andor_no_space
        |apply (parenthesised_no_space _ Hb)|done]. }
  fold initial_vars.
  erewrite for_each_cons_Ok; [|by apply token_opening].
  erewrite for_each_cons_Ok; [|by apply token_andor].
  erewrite for_each_cons_Ok; [|by apply token_closing].
  cbv zeta. cbn [license_exception_flag after_token paren_depth
                 last_paren_depth initial_vars error_count for_each andb].
  rewrite Hina, Hinb. reflexivity.
Qed.

Lemma check_license_tag_parenthesised_pair_witness :
  check_license_tag Sample.catalog "(MIT OR Apache-2.0)" = (Ok 0%nat, []).
Proof.
  apply (check_license_tag_parenthesised_pair Sample.catalog
           "MIT" "OR" "Apache-2.0"); vm_compute; reflexivity.
Defined.

(** An exception that opens a parenthesis keeps the exception mode on: in
    [l WITH (e1 e2)] the second identifier too is looked up in the exception
    set, not in the license set, and each of the two that the exception set
    lacks is one error. *)
Theorem check_license_tag_exception_group spdx_data l kw e1 e2 :
  license_id spdx_data l = true → is_with kw = true →
  identifier e1 = true → identifier e2 = true →
  (check_license_tag spdx_data
     (join " " [l; kw; String "(" e1; e2 +:+ ")"])).1
  = Ok (count (negb (py_in e1 (spdx_exceptions spdx_data)))
        + count (negb (py_in e2 (spdx_exceptions spdx_data))))%nat.
Proof.
  intros [Hl Hinl]%andb_prop Hkw He1 He2. unfold check_license_tag.
  rewrite (split_join " "%char); [|done|].
  2:{ repeat apply Forall_cons_2;
        [by apply identifier_no_space|by apply is_with_no_space
        |apply (parenthesised_no_space _ He1)
        |apply (parenthesised_no_space _ He2)|done]. }
  fold initial_vars.
  set (c := join " " [l; kw; String "(" e1; e2 +:+ ")"]).
  pose proof (token_license spdx_data c initial_vars l Hl eq_refl) as Sl.
  rewrite Hinl in Sl. rewrite (for_each_cons_quiet _ _ _ _ _ Sl).
  rewrite (for_each_cons_quiet _ _ _ _ _ (token_with spdx_data c _ kw Hkw)).
  erewrite for_each_cons_Ok; [|by apply token_opening].
  erewrite for_each_cons_Ok; [|by apply token_closing].
  cbv zeta. cbn [license_exception_flag after_token paren_depth
                 last_paren_depth initial_vars error_count for_each].
  change (0 + 1 <=? 0) with false. cbn [andb negb].
  destruct (py_in e1 (spdx_exceptions spdx_data)),
    (py_in e2 (spdx_exceptions spdx_data)); reflexivity.
Qed.

Lemma check_license_tag_exception_group_witness :
  py_in "MIT" (spdx_licenses Sample.catalog) = true
  ∧ (check_license_tag Sample.catalog "MIT WITH (LLVM-exception MIT)").1
    = Ok 1%nat.
Proof.
  split; [vm_compute; reflexivity|].
  apply (check_license_tag_exception_group Sample.catalog
           "MIT" "WITH" "LLVM-exception" "MIT"); vm_compute; reflexivity.
Defined.

(** ** [load_spdx_data] *)

Section LoaderOutcome.
Context (w : World) (ignore_spdx : list string).

Abbreviation licenses_url := (spdx_url +:+ "master/json/licenses.json").
Abbreviation exceptions_url := (spdx_url +:+ "master/json/exceptions.json").

(** With both downloads well formed, the license set of the loaded catalog
    is exactly the fetched license ids together with the ignored ids, and
    the exception set exactly the fetched exception ids. *)
Theorem load_spdx_data_catalog
    licenses exceptions license_records exception_records :
  requests_get_json w licenses_url = Ok licenses →
  requests_get_json w exceptions_url = Ok exceptions →
  licenses !! "licenses" = Some license_records →
  exceptions !! "exceptions" = Some exception_records →
  records_have "licenseId" license_records →
  records_have "licenseExceptionId" exception_records →
  ∃ spdx_data,
    load_spdx_data w ignore_spdx
    = (Ok spdx_data, [Plain "Downloading SPDX license data..."])
    ∧ (∀ k, py_in k (spdx_licenses spdx_data) = true ↔
            (∃ r, r ∈ license_records ∧ r !! "licenseId" = Some k)
            ∨ k ∈ ignore_spdx)
    ∧ (∀ k, py_in k (spdx_exceptions spdx_data) = true ↔
            ∃ r, r ∈ exception_records ∧ r !! "licenseExceptionId" = Some k).
Proof. apply load_spdx_data_spec. Qed.

Lemma for_each_cons_returns {A S} (body : S → A → M S) x xs s s' out :
  for_each body (x :: xs) s = (Ok s', out) →
  ∃ s1 o1 o2, body s x = (Ok s1, o1)
              ∧ for_each body xs s1 = (Ok s', o2) ∧ out = o1 ++ o2.
Proof.
  simpl. unfold mbind, M_bind.
  destruct (body s x) as [[s1|e] o1]; [|done].
  destruct (for_each body xs s1) as [r o2] eqn:Hrest. intros [= -> <-].
  by exists s1, o1, o2.
Qed.

Lemma collect_ids_returns key records d d' out :
  collect_ids key records d = (Ok d', out) → records_have key records.
Proof.
  unfold collect_ids, records_have. revert d d' out.
  induction records as [|r rs IH]; intros d d' out Hrun; [constructor|].
  apply for_each_cons_returns in Hrun as (d1 & o1 & o2 & Hstep & Hrest & _).
  constructor; [|by eapply IH].
  unfold getitem in Hstep. destruct (r !! key) as [id|]; [by exists id|done].
Qed.

(** The loader returns a catalog only if both downloads succeed, each has
    its top-level key, and every record has its identifier field. *)
Theorem load_spdx_data_returns_only_well_formed spdx_data out :
  load_spdx_data w ignore_spdx = (Ok spdx_data, out) →
  ∃ licenses exceptions license_records exception_records,
    requests_get_json w licenses_url = Ok licenses
    ∧ requests_get_json w exceptions_url = Ok exceptions
    ∧ licenses !! "licenses" = Some license_records
    ∧ exceptions !! "exceptions" = Some exception_records
    ∧ records_have "licenseId" license_records
    ∧ records_have "licenseExceptionId" exception_records.
Proof.
  unfold load_spdx_data, print, emit, py_assert, raise, getitem, py_in, lift.
  cbv zeta.
  destruct (requests_get_json w licenses_url) as [licenses|e];
    cbn [mbind M_bind mret M_ret app]; [|done].
  destruct (licenses !! "licenses") as [lrecs|] eqn:Hl;
    cbn [mbind M_bind mret M_ret app]; [|done].
  destruct (collect_ids "licenseId" lrecs ∅) as [[d1|e] o1] eqn:H1;
    cbn [mbind M_bind mret M_ret app]; [|done].
  destruct (merge_ignored_spec ignore_spdx d1) as (d2 & -> & _).
  destruct (requests_get_json w exceptions_url) as [exceptions|e];
    cbn [mbind M_bind mret M_ret app]; [|done].
  destruct (exceptions !! "exceptions") as [erecs|] eqn:He;
    cbn [mbind M_bind mret M_ret app]; [|done].
  destruct (collect_ids "licenseExceptionId" erecs ∅) as [[d3|e] o3] eqn:H3;
    cbn [mbind M_bind mret M_ret app]; [|done].
  intros _. exists licenses, exceptions, lrecs, erecs.
  repeat split; try done; by eapply collect_ids_returns.
Qed.

(** A download without its top-level key fails the [assert]: for the
    license list at once, for the exception list after the license list has
    been read.  Only the download notice has been printed. *)
Theorem load_spdx_data_missing_key licenses :
  requests_get_json w licenses_url = Ok licenses →
  (licenses !! "licenses" = None
   ∨ ∃ license_records exceptions,
       licenses !! "licenses" = Some license_records
       ∧ records_have "licenseId" license_records
       ∧ requests_get_json w exceptions_url = Ok exceptions
       ∧ exceptions !! "exceptions" = None) →
  load_spdx_data w ignore_spdx
  = (Raise AssertionError, [Plain "Downloading SPDX license data..."]).
Proof.
  intros Hfetch Hcase.
  unfold load_spdx_data, print, emit, py_assert, raise, getitem, py_in, lift.
  cbv zeta. rewrite Hfetch. cbn [mbind M_bind mret M_ret app].
  destruct Hcase as [Hl|(lrecs & exceptions & Hl & Hrecs & Hfetch' & He)];
    rewrite Hl; cbn [mbind M_bind mret M_ret app]; [done|].
  destruct (collect_ids_spec "licenseId" lrecs ∅ Hrecs) as (d1 & -> & _).
  cbn [mbind M_bind mret M_ret app].
  destruct (merge_ignored_spec ignore_spdx d1) as (d2 & -> & _).
  rewrite Hfetch'. cbn [mbind M_bind mret M_ret app]. rewrite He.
  reflexivity.
Qed.

End LoaderOutcome.

Lemma load_spdx_data_catalog_witness :
  ∃ spdx_data,
    (load_spdx_data (Sample.world (Sample.manifest_of [])) ["Custom-1"]).1
    = Ok spdx_data
    ∧ py_in "MIT" (spdx_licenses spdx_data) = true
    ∧ py_in "Custom-1" (spdx_licenses spdx_data) = true
    ∧ py_in "MIT" (spdx_exceptions spdx_data) = false.
Proof.
  destruct (load_spdx_data_catalog
              (Sample.world (Sample.manifest_of [])) ["Custom-1"]
              Sample.spdx_json Sample.spdx_json
              Sample.license_records Sample.exception_records)
    as (spdx_data & Hrun & Hlic & Hexc);
    [reflexivity|reflexivity|vm_compute; reflexivity|vm_compute; reflexivity
    |repeat constructor; eexists; vm_compute; reflexivity
    |repeat constructor; eexists; vm_compute; reflexivity|].
  exists spdx_data. split; [by rewrite Hrun|]. split; [|split].
  - apply Hlic. left. eexists. split; [apply list_elem_of_here|].
    vm_compute; reflexivity.
  - apply Hlic. right. apply list_elem_of_here.
  - apply not_true_is_false. intros (r & Hr & Hk)%Hexc.
    apply elem_of_cons in Hr as [->|Hr]; [|by apply elem_of_nil in Hr].
    vm_compute in Hk. discriminate.
Defined.

Lemma load_spdx_data_returns_only_well_formed_witness :
  ∃ licenses, requests_get_json (Sample.world (Sample.manifest_of []))
                (spdx_url +:+ "master/json/licenses.json") = Ok licenses.
Proof.
  destruct (load_spdx_data_returns_only_well_formed
              (Sample.world (Sample.manifest_of [])) []
              {| spdx_licenses := {["MIT" := true]};
                 spdx_exceptions := {["LLVM-exception" := true]} |}
              [Plain "Downloading SPDX license data..."])
    as (licenses & _ & _ & _ & H & _); [vm_compute; reflexivity|].
  by exists licenses.
Defined.

Lemma load_spdx_data_missing_key_witness :
  load_spdx_data
    (Sample.world_of (λ _, true) (λ _, Raise InvalidGitRepositoryError)
       (λ _, Ok Sample.json_without_key) (Sample.manifest_of [])) []
  = (Raise AssertionError, [Plain "Downloading SPDX license data..."]).
Proof.
  apply (load_spdx_data_missing_key _ [] Sample.json_without_key);
    [reflexivity|left; vm_compute; reflexivity].
Defined.

(** ** The declared paths and the submodules on disk *)

Lemma declared_paths_loop deps acc :
  foldl (λ repo_list dep,
           match dep_repository dep with
           | Some repo =>
               match repo !! "path" with
               | Some path => repo_list ++ [path]
               | None => repo_list
               end
           | None => repo_list
           end) acc deps
  = acc ++ omap declared_path deps.
Proof.
  revert acc. induction deps as [|dep deps IH]; intros acc; simpl.
  { by rewrite app_nil_r. }
  rewrite IH. unfold declared_path.
  destruct (dep_repository dep) as [repo|]; simpl; [|done].
  destruct (repo !! "path"); simpl; [|done]. by rewrite <- app_assoc.
Qed.

(** [list_repo_paths_in_manifest] lists, in manifest order and with
    repetitions, the path of every dependency whose repository stanza has
    one; a path is listed exactly when some dependency declares it, and a
    manifest without dependencies lists none. *)
Theorem list_repo_paths_in_manifest_declared manifest :
  list_repo_paths_in_manifest manifest
  = omap declared_path (default [] (manifest_dependencies manifest))
  ∧ ∀ p, p ∈ list_repo_paths_in_manifest manifest ↔
         ∃ deps dep, manifest_dependencies manifest = Some deps
                     ∧ dep ∈ deps ∧ declared_path dep = Some p.
Proof.
  assert (list_repo_paths_in_manifest manifest
          = omap declared_path (default [] (manifest_dependencies manifest)))
    as Heq.
  { unfold list_repo_paths_in_manifest.
    destruct (manifest_dependencies manifest) as [deps|]; [|done].
    by rewrite declared_paths_loop. }
  split; [done|]. intros p. rewrite Heq, list_elem_of_omap.
  destruct (manifest_dependencies manifest) as [deps|]; simpl.
  - split.
    + intros (dep & Hin & Hp). by exists deps, dep.
    + intros (deps' & dep & [= <-] & Hin & Hp). by exists dep.
  - split.
    + intros (dep & Hin & _). by apply elem_of_nil in Hin.
    + intros (deps' & dep & [=] & _).
Qed.

Lemma get_all_submodules_loop w repo_root_path ignored_paths abspaths acc :
  for_each (λ path_list abspath,
              let path := os_path_relpath w abspath repo_root_path in
              if negb (str_in_list path ignored_paths)
              then mret (path_list ++ [path]) else mret path_list)
    abspaths acc
  = (Ok (acc ++ filter (λ p, p ∉ ignored_paths)
                  ((λ abspath, os_path_relpath w abspath repo_root_path)
                   <$> abspaths)), []).
Proof.
  revert acc. induction abspaths as [|a abspaths IH]; intros acc.
  { simpl. unfold mret, M_ret. by rewrite app_nil_r. }
  rewrite fmap_cons, filter_cons.
  destruct (decide (os_path_relpath w a repo_root_path ∉ ignored_paths))
    as [Hs|Hs].
  - assert (str_in_list (os_path_relpath w a repo_root_path) ignored_paths
            = false) as E.
    { apply not_true_is_false. by rewrite str_in_list_elem_of. }
    erewrite for_each_cons_quiet; [|cbv zeta; by rewrite E].
    rewrite IH. by rewrite <- app_assoc.
  - assert (str_in_list (os_path_relpath w a repo_root_path) ignored_paths
            = true) as E.
    { apply str_in_list_elem_of. by apply dec_stable. }
    erewrite for_each_cons_quiet; [|cbv zeta; by rewrite E]. by rewrite IH.
Qed.

(** [get_all_submodules] returns, in git's order, the path relative to the
    root of every submodule that is not ignored, and prints nothing; an
    ignored path never appears in the result. *)
Theorem get_all_submodules_not_ignored w repo_root_path ignored_paths repo :
  git_Repo w repo_root_path = Ok repo →
  get_all_submodules w repo_root_path ignored_paths
  = (Ok (filter (λ p, p ∉ ignored_paths)
           ((λ abspath, os_path_relpath w abspath repo_root_path)
            <$> submodules_abspath repo)), [])
  ∧ ∀ paths, (get_all_submodules w repo_root_path ignored_paths).1 = Ok paths →
             ∀ p, p ∈ paths → p ∉ ignored_paths.
Proof.
  intros Hrepo.
  assert (get_all_submodules w repo_root_path ignored_paths
          = (Ok (filter (λ p, p ∉ ignored_paths)
                   ((λ abspath, os_path_relpath w abspath repo_root_path)
                    <$> submodules_abspath repo)), [])) as Hrun.
  { unfold get_all_submodules, lift. rewrite Hrepo. cbn [mbind M_bind].
    by rewrite get_all_submodules_loop. }
  split; [done|]. rewrite Hrun. intros paths [= <-] p Hp.
  by apply list_elem_of_filter in Hp as [? _].
Qed.

Lemma get_all_submodules_not_ignored_witness :
  get_all_submodules (Sample.world (Sample.manifest_of [])) "/r" ["libs/x"]
  = (Ok [], [])
  ∧ get_all_submodules (Sample.world (Sample.manifest_of [])) "/r" ["libs/y"]
    = (Ok ["libs/x"], []).
Proof.
  split.
  - destruct (get_all_submodules_not_ignored
                (Sample.world (Sample.manifest_of [])) "/r" ["libs/x"]
                Sample.root_repo eq_refl) as [-> _].
    vm_compute; reflexivity.
  - destruct (get_all_submodules_not_ignored
                (Sample.world (Sample.manifest_of [])) "/r" ["libs/y"]
                Sample.root_repo eq_refl) as [-> _].
    vm_compute; reflexivity.
Defined.

(** ** [validate_dependency] *)

(** [validate_dependency] reads no field that it has not found: each of
    ["name"], ["version"] and ["license"] that is missing is one error, and
    the only failure is the [IndexError] of a license expression with an
    empty token; otherwise the errors of the license expression are added
    to the missing fields. *)
Theorem validate_dependency_outcome dependency spdx_data :
  (validate_dependency dependency spdx_data).1
  = match dep_fields dependency !! "license" with
    | None =>
        Ok (missing "name" (dep_fields dependency)
            + missing "version" (dep_fields dependency) + 1)%nat
    | Some license =>
        if bool_decide (EmptyString ∈ split " " license)
        then Raise IndexError
        else Ok (missing "name" (dep_fields dependency)
                 + missing "version" (dep_fields dependency)
                 + length (check_license_tag spdx_data license).2)%nat
    end.
Proof.
  unfold validate_dependency, missing, getitem. cbv zeta.
  destruct (py_in "name" (dep_fields dependency)),
    (py_in "version" (dep_fields dependency));
    unfold py_in;
    (destruct (dep_fields dependency !! "license") as [license|];
     [|reflexivity]); run;
    pose proof (check_license_tag_outcome spdx_data license) as Hout;
    destruct (check_license_tag spdx_data license) as [r out];
    cbn [fst snd] in Hout; rewrite Hout;
    destruct (bool_decide (EmptyString ∈ split " " license)); reflexivity.
Qed.

(** ** [validate_repository] and [validate_submodule_repo] *)

(** A repository stanza with a ["type"] and without a checked-out path is
    validated without touching git and without raising: one error for a
    type other than ["git"], one for a missing ["url"], one for a path that
    does not exist, whose line names the path. *)
Theorem validate_repository_without_checkout w dep manifest_dir repo type :
  dep_repository dep = Some repo →
  repo !! "type" = Some type →
  (∀ path, repo !! "path" = Some path →
           os_path_exists w (os_path_join w manifest_dir path) = false) →
  (validate_repository w dep manifest_dir).1
  = Ok (count (negb (String.eqb "git" type)) + missing "url" repo
        + count (py_in "path" repo))%nat
  ∧ ∀ path, repo !! "path" = Some path →
      error_line 1 ("Relative path does not exist: " +:+ path)
      ∈ (validate_repository w dep manifest_dir).2.
Proof.
  intros Hrepo Htype Hpath.
  unfold validate_repository, getitem_repository, missing, getitem.
  rewrite Hrepo. run. unfold py_in. rewrite Htype. run.
  destruct (String.eqb "git" type), (repo !! "url");
    (destruct (repo !! "path") as [path|];
     [rewrite (Hpath path eq_refl)|]); run; cbn [fst snd count];
    (split; [reflexivity|]); intros p [= <-] || intros p [=];
    present_line.
Qed.

Lemma validate_repository_without_checkout_witness :
  (validate_repository
     (Sample.world_of (λ _, false) (λ _, Raise InvalidGitRepositoryError)
        (λ _, Ok Sample.spdx_json) (Sample.manifest_of []))
     (Sample.dep_of "v1.0" Sample.repo_svn) "/r").1 = Ok 3%nat.
Proof.
  refine (proj1 (validate_repository_without_checkout
    (Sample.world_of (λ _, false) (λ _, Raise InvalidGitRepositoryError)
       (λ _, Ok Sample.spdx_json) (Sample.manifest_of []))
    (Sample.dep_of "v1.0" Sample.repo_svn) "/r" Sample.repo_svn "svn"
    eq_refl _ _)); [vm_compute; reflexivity|reflexivity].
Defined.

(** A repository stanza without ["url"] whose path is checked out: the
    missing field is printed as an error, and then
    [validate_submodule_repo] reads [repo["url"]] and raises [KeyError]. *)
Theorem validate_repository_missing_url_raises
    w dep manifest_dir repo type path submodule :
  dep_repository dep = Some repo →
  repo !! "type" = Some type →
  repo !! "url" = None →
  repo !! "path" = Some path →
  os_path_exists w (os_path_join w manifest_dir path) = true →
  git_Repo w (os_path_join w manifest_dir path) = Ok submodule →
  (validate_repository w dep manifest_dir).1 = Raise (KeyError "url")
  ∧ error_line 1 (dq +:+ "url" +:+ dq +:+ " field not found in repository")
    ∈ (validate_repository w dep manifest_dir).2.
Proof.
  intros Hrepo Htype Hurl Hpath Hexists Hopen.
  unfold validate_repository, validate_submodule_repo, getitem_repository,
    getitem.
  rewrite Hrepo. run. unfold py_in. rewrite Htype, Hurl, Hpath. run.
  rewrite Hexists. run. rewrite Hopen. run.
  destruct (String.eqb "git" type); run; cbn [fst snd];
    (split; [reflexivity|present_line]).
Qed.

Lemma validate_repository_missing_url_raises_witness :
  (validate_repository (Sample.world (Sample.manifest_of []))
     (Sample.dep_of "v1.0" Sample.repo_without_url) "/r").1
  = Raise (KeyError "url").
Proof.
  refine (proj1 (validate_repository_missing_url_raises
    (Sample.world (Sample.manifest_of []))
    (Sample.dep_of "v1.0" Sample.repo_without_url) "/r"
    Sample.repo_without_url "git" "libs/x" Sample.submodule_x
    eq_refl _ _ _ _ _)); vm_compute; reflexivity.
Defined.

(** A dependency without ["version"] whose repository is checked out: after
    the URL check, [validate_submodule_repo] reads [dep["version"]] and
    raises [KeyError]. *)
Theorem validate_submodule_repo_missing_version_raises
    w dep manifest_dir repo path url submodule :
  dep_repository dep = Some repo →
  repo !! "path" = Some path →
  repo !! "url" = Some url →
  dep_fields dep !! "version" = None →
  git_Repo w (os_path_join w manifest_dir path) = Ok submodule →
  validate_submodule_repo w dep manifest_dir
  = (Raise (KeyError "version"),
     url_lines w url (remotes_origin_url submodule)).
Proof.
  intros Hrepo Hpath Hurl Hversion Hopen.
  unfold validate_submodule_repo, getitem_repository, getitem.
  rewrite Hrepo. run. rewrite Hpath. run. rewrite Hopen. run.
  rewrite Hurl, Hversion. unfold url_lines, url_mismatch.
  destruct (String.eqb (str_lower w (remotes_origin_url submodule))
              (str_lower w url)); reflexivity.
Qed.

Lemma validate_submodule_repo_missing_version_raises_witness :
  (validate_submodule_repo (Sample.world (Sample.manifest_of []))
     Sample.dep_unversioned "/r").1 = Raise (KeyError "version").
Proof.
  refine (f_equal fst (validate_submodule_repo_missing_version_raises
    (Sample.world (Sample.manifest_of [])) Sample.dep_unversioned "/r"
    Sample.repo_x "libs/x" "GIT@EXAMPLE.COM:X.git" Sample.submodule_x
    eq_refl _ _ _ _)); vm_compute; reflexivity.
Defined.

(** When the version resolves as written, [validate_submodule_repo]
    returns the number of failed checks among the URL check and the
    revision check; it returns 0 exactly when the lowercased URLs are equal
    and the submodule's HEAD is the resolved commit; for ASCII URLs, exactly
    when they differ at most in the case of letters and HEAD is the resolved
    commit. *)
Theorem validate_submodule_repo_pinned
    w dep manifest_dir repo path url version submodule hexsha :
  dep_repository dep = Some repo →
  repo !! "path" = Some path →
  repo !! "url" = Some url →
  dep_fields dep !! "version" = Some version →
  git_Repo w (os_path_join w manifest_dir path) = Ok submodule →
  commit_hexsha submodule version = Ok hexsha →
  is_hexsha hexsha = true →
  validate_submodule_repo w dep manifest_dir
  = (Ok (count (url_mismatch w url (remotes_origin_url submodule))
         + count (negb (String.eqb (head_commit_hexsha submodule) hexsha)))%nat,
     url_lines w url (remotes_origin_url submodule)
     ++ revision_lines version hexsha (head_commit_hexsha submodule))
  ∧ ((validate_submodule_repo w dep manifest_dir).1 = Ok 0%nat ↔
     str_lower w (remotes_origin_url submodule) = str_lower w url
     ∧ head_commit_hexsha submodule = hexsha)
  ∧ (is_ascii (remotes_origin_url submodule) = true → is_ascii url = true →
     ((validate_submodule_repo w dep manifest_dir).1 = Ok 0%nat ↔
      equal_ignoring_case (remotes_origin_url submodule) url = true
      ∧ head_commit_hexsha submodule = hexsha)).
Proof.
  intros H1 H2 H3 H4 H5 Hv Hhex.
  rewrite (validate_submodule_repo_resolved w dep manifest_dir repo path url
             version submodule H1 H2 H3 H4 H5 hexsha Hv
             (is_hexsha_not_unknown _ Hhex)).
  split; [done|].
  assert (∀ b : bool,
    url_mismatch w url (remotes_origin_url submodule) = negb b →
    (Ok (count (url_mismatch w url (remotes_origin_url submodule))
         + count (negb (String.eqb (head_commit_hexsha submodule) hexsha)))%nat
     = Ok 0%nat ↔
     b = true ∧ head_commit_hexsha submodule = hexsha)) as Hzero.
  { intros b ->.
    destruct b; destruct (String.eqb (head_commit_hexsha submodule) hexsha)
      eqn:Eh;
      first [ apply String.eqb_eq in Eh | apply String.eqb_neq in Eh ];
      simpl; (split; [intros H|intros [Hu Hh]]); done. }
  cbn [fst]. split.
  - rewrite (Hzero (String.eqb (str_lower w (remotes_origin_url submodule))
                      (str_lower w url))) by done.
    by rewrite String.eqb_eq.
  - intros Ho Hu. apply Hzero. by apply url_mismatch_ascii.
Qed.

Lemma validate_submodule_repo_pinned_witness :
  validate_submodule_repo (Sample.world (Sample.manifest_of []))
    (Sample.dep_of "v1.0" Sample.repo_x) "/r"
  = (Ok 0%nat,
     [Plain "    Manifest URL:     GIT@EXAMPLE.COM:X.git";
      Plain "    Submodule URL:    git@example.com:x.git";
      Plain "    Manifest Version: v1.0";
      Plain ("    Manifest hash:    " +:+ Sample.sha_a);
      Plain ("    Submodule hash:   " +:+ Sample.sha_a)])
  ∧ (validate_submodule_repo (Sample.world (Sample.manifest_of []))
       (Sample.dep_of "v1.0" Sample.repo_y) "/r").1 = Ok 1%nat.
Proof.
  split.
  - refine (eq_trans (proj1 (validate_submodule_repo_pinned
      (Sample.world (Sample.manifest_of []))
      (Sample.dep_of "v1.0" Sample.repo_x) "/r" Sample.repo_x "libs/x"
      "GIT@EXAMPLE.COM:X.git" "v1.0" Sample.submodule_x Sample.sha_a
      eq_refl _ _ _ _ _ _)) _); vm_compute; reflexivity.
  - refine (eq_trans (f_equal fst (proj1 (validate_submodule_repo_pinned
      (Sample.world (Sample.manifest_of []))
      (Sample.dep_of "v1.0" Sample.repo_y) "/r" Sample.repo_y "libs/x"
      "git@example.com:y.git" "v1.0" Sample.submodule_x Sample.sha_a
      eq_refl _ _ _ _ _ _))) _); vm_compute; reflexivity.
Defined.

(** ** [validate_manifest] and [main] *)

Lemma bind_not_Ok {A B} (m : M A) (k : A → M B) :
  (∀ a b, (k a).1 ≠ Ok b) → ∀ b, (m ≫= k).1 ≠ Ok b.
Proof.
  intros Hk b. unfold mbind, M_bind. destruct m as [[a|e] out]; [|done].
  specialize (Hk a b). by destruct (k a).
Qed.

(** The directory of the manifest must be a git repository: if
    [git.Repo] refuses it, [validate_manifest] returns no total, whatever
    the manifest holds (even without dependencies). *)
Theorem validate_manifest_needs_git_repository
    w manifest_path ignored_paths spdx_data e :
  git_Repo w (os_path_dirname w manifest_path) = Raise e →
  ∀ total,
    (validate_manifest w manifest_path ignored_paths spdx_data).1 ≠ Ok total.
Proof.
  intros Hrepo. unfold validate_manifest. cbv zeta.
  do 6 (apply bind_not_Ok; intros ?).
  unfold get_all_submodules. by rewrite Hrepo.
Qed.

Lemma validate_manifest_needs_git_repository_witness :
  (validate_manifest
     (Sample.world_of (λ _, true) (λ _, Raise InvalidGitRepositoryError)
        (λ _, Ok Sample.spdx_json) (Sample.manifest_of []))
     "/r/manifest.yml" [] Sample.catalog).1 ≠ Ok 0%nat.
Proof.
  apply (validate_manifest_needs_git_repository
           (Sample.world_of (λ _, true) (λ _, Raise InvalidGitRepositoryError)
              (λ _, Ok Sample.spdx_json) (Sample.manifest_of []))
           "/r/manifest.yml" [] Sample.catalog InvalidGitRepositoryError).
  reflexivity.
Defined.

Lemma undeclared_nil git_submodules : undeclared [] git_submodules = git_submodules.
Proof.
  unfold undeclared. induction git_submodules as [|s subs IH]; [done|].
  rewrite filter_cons_True by apply not_elem_of_nil. by rewrite IH.
Qed.

(** A manifest without dependencies and with a valid license: the total is
    one error for each of ["name"], ["version"] and ["description"] that is
    missing, plus one for every submodule on disk that is not ignored. *)
Theorem validate_manifest_without_dependencies
    w manifest_path ignored_paths spdx_data manifest toks repo :
  yaml_load_file w manifest_path = Ok manifest →
  default [] (manifest_dependencies manifest) = [] →
  manifest_fields manifest !! "license" = Some (join " " toks) →
  license_expression spdx_data toks = true →
  git_Repo w (os_path_dirname w manifest_path) = Ok repo →
  (validate_manifest w manifest_path ignored_paths spdx_data).1
  = Ok (missing "name" (manifest_fields manifest)
        + missing "version" (manifest_fields manifest)
        + missing "description" (manifest_fields manifest)
        + length (filter (λ p, p ∉ ignored_paths)
                    ((λ abspath, os_path_relpath w abspath
                                   (os_path_dirname w manifest_path))
                     <$> submodules_abspath repo)))%nat.
Proof.
  intros Hload Hdeps Hlicense Hexpr Hrepo.
  assert (list_repo_paths_in_manifest manifest = []) as Hpaths.
  { unfold list_repo_paths_in_manifest.
    destruct (manifest_dependencies manifest) as [deps|]; [|done].
    simpl in Hdeps. by subst deps. }
  assert (get_all_submodules w (os_path_dirname w manifest_path) ignored_paths
          = (Ok (filter (λ p, p ∉ ignored_paths)
                   ((λ abspath, os_path_relpath w abspath
                                  (os_path_dirname w manifest_path))
                    <$> submodules_abspath repo)), [])) as Hsubs.
  { unfold get_all_submodules, lift. rewrite Hrepo. cbn [mbind M_bind].
    by rewrite get_all_submodules_loop. }
  unfold validate_manifest, missing, getitem, lift. cbv zeta.
  rewrite Hload. cbn [mbind M_bind]. rewrite Hpaths, Hsubs.
  destruct (py_in "name" (manifest_fields manifest)),
    (py_in "version" (manifest_fields manifest)),
    (py_in "description" (manifest_fields manifest));
    unfold py_in; rewrite Hlicense; run;
    rewrite (valid_expression_no_errors spdx_data toks Hexpr); run;
    (destruct (manifest_dependencies manifest) as [deps|];
     [simpl in Hdeps; subst deps|]); run;
    unfold check_for_missing_submodules;
    rewrite check_for_missing_submodules_loop, undeclared_nil; reflexivity.
Qed.

Lemma validate_manifest_without_dependencies_witness :
  (validate_manifest (Sample.world Sample.manifest_bare) "/r/manifest.yml" []
     Sample.catalog).1 = Ok 3%nat
  ∧ (validate_manifest (Sample.world Sample.manifest_bare) "/r/manifest.yml"
       ["libs/x"] Sample.catalog).1 = Ok 2%nat.
Proof.
  split.
  - refine (eq_trans (validate_manifest_without_dependencies
      (Sample.world Sample.manifest_bare) "/r/manifest.yml" [] Sample.catalog
      Sample.manifest_bare ["MIT"] Sample.root_repo eq_refl eq_refl _ _ eq_refl)
      _); vm_compute; reflexivity.
  - refine (eq_trans (validate_manifest_without_dependencies
      (Sample.world Sample.manifest_bare) "/r/manifest.yml" ["libs/x"]
      Sample.catalog Sample.manifest_bare ["MIT"] Sample.root_repo
      eq_refl eq_refl _ _ eq_refl) _); vm_compute; reflexivity.
Defined.

(** When there is no file at the manifest path, the script prints one
    error and leaves through [sys.exit(-1)], exit status 255, before any
    download or validation. *)
Theorem main_missing_manifest w args :
  os_path_exists w (os_path_abspath w (manifest_path args)) = false →
  main w args
  = (Raise (SystemExit (PInt (-1))),
     [error_line 0 ("Error: no file found at " +:+
                    os_path_abspath w (manifest_path args))])
  ∧ (run_script w args).1 = 255.
Proof.
  intros Hexists.
  assert (main w args
          = (Raise (SystemExit (PInt (-1))),
             [error_line 0 ("Error: no file found at " +:+
                            os_path_abspath w (manifest_path args))])) as Hmain.
  { unfold main, sys_exit. cbv zeta. rewrite Hexists. reflexivity. }
  split; [done|]. unfold run_script. by rewrite Hmain.
Qed.

Lemma main_missing_manifest_witness :
  (run_script
     (Sample.world_of (λ _, false) (λ _, Raise InvalidGitRepositoryError)
        (λ _, Raise FetchError) (Sample.manifest_of []))
     Sample.args).1 = 255.
Proof.
  refine (proj2 (main_missing_manifest
    (Sample.world_of (λ _, false) (λ _, Raise InvalidGitRepositoryError)
       (λ _, Raise FetchError) (Sample.manifest_of []))
    Sample.args _)). reflexivity.
Defined.
